(** * rest_faq: the FAQ / Tag service and its request handlers

    The repository holds two variants of one service: [main.go], whose
    handlers receive the store handle as an argument, and an earlier file
    with a package-level handle, explicit integer [ID] fields and a tenth
    route.  Both are embedded here, over one model of the persistence
    provider (GORM on SQLite) that the handlers call.

    Scope of the model.
    - The [:id] path segment is a decimal integer, which the provider reads
      as a primary-key condition.
    - A request body is given by what decoding it yields: either a failure
      with its cause, or, per field of the target struct, the value the body
      carries for it (none when the key is missing or holds JSON null, which
      the decoder skips for scalar fields).
    - Identifiers and instants are mathematical integers; instant [0] is
      Go's zero [time.Time].
    - A tag's back reference [FAQs] is never loaded by any handler and is
      left out of the [Tag] record.  The model therefore covers the request
      bodies that carry no [FAQs] array under a tag; for a body that does,
      the provider would also save those FAQs and their pairs, which is
      outside the model.  Nothing below states that a create or update of
      a tag that goes through leaves the FAQ table or the join table as it
      was. *)

From Stdlib Require Import ZArith List Ascii String Bool Lia DecimalString.
Import ListNotations.
Local Open Scope string_scope.
Local Open Scope list_scope.
Local Open Scope Z_scope.

(** ** The persistence provider

    The handlers reach the store only through calls of the ORM, an external
    library.  The calls are modelled after its documented behaviour:
    - a model with [DeletedAt] is soft-deleted, and every query and update
      carries [deleted_at IS NULL];
    - [Create] fills zero time stamps, lets the store assign the key when it
      is zero and writes it back, and fails on a key in use;
    - [Save] is a [Create] when the key is zero; otherwise it updates every
      column of the live row with that key and, when there is none, falls
      back to an insert that overwrites on conflict;
    - [Create] and [Save] of an FAQ also save its [Tags]: each tag is
      inserted unless its key is in use, and each pair is added to the join
      table unless it is there;
    - [Preload] loads the tags through the join table;
    - a call runs in one transaction: it fails as a whole or not at all. *)

Module Gorm.

Definition Time := Z.

(** [gorm.Model]: primary key and the three provider-managed timestamps. *)
Record Model := mkModel {
  ID : Z;
  CreatedAt : Time;
  UpdatedAt : Time;
  DeletedAt : option Time
}.

Inductive error :=
| ErrRecordNotFound
| ErrMissingWhereClause
| ErrStore (cause : string)
| ErrSyntax (cause : string)
| ErrUnmarshalType (field ty : string) (n : Z).

Definition decimal (n : Z) : string := NilZero.string_of_int (Z.to_int n).

(** [err.Error()] *)
Definition Error (e : error) : string :=
  match e with
  | ErrRecordNotFound => "record not found"
  | ErrMissingWhereClause => "WHERE conditions required"
  | ErrStore cause => cause
  | ErrSyntax cause => cause
  | ErrUnmarshalType field ty n =>
      String.concat "" ["json: cannot unmarshal number "; decimal n;
                        " into Go struct field "; field; " of type "; ty]
  end.

Definition live (m : Model) : bool :=
  match DeletedAt m with None => true | Some _ => false end.

Definition with_id (i : Z) (m : Model) : Model :=
  mkModel i (CreatedAt m) (UpdatedAt m) (DeletedAt m).

(** Creation fills the two time stamps that are still zero. *)
Definition stamp (now : Time) (m : Model) : Model :=
  mkModel (ID m)
          (if CreatedAt m =? 0 then now else CreatedAt m)
          (if UpdatedAt m =? 0 then now else UpdatedAt m)
          (DeletedAt m).

(** An update always refreshes [UpdatedAt]. *)
Definition touch (now : Time) (m : Model) : Model :=
  mkModel (ID m) (CreatedAt m) now (DeletedAt m).

Definition mark_deleted (now : Time) (m : Model) : Model :=
  mkModel (ID m) (CreatedAt m) (UpdatedAt m) (Some now).

(** *** Tables: rows kept in primary-key order *)

Section Table.
Context {A : Type}.
Variable model : A -> Model.
Variable set_model : Model -> A -> A.

Definition is_row (i : Z) (r : A) : bool := ID (model r) =? i.
Definition is_live_row (i : Z) (r : A) : bool :=
  (ID (model r) =? i) && live (model r).

(** Some row, soft-deleted or not, carries this key. *)
Definition has_id (i : Z) (rows : list A) : bool := existsb (is_row i) rows.

(** [WHERE id = i AND deleted_at IS NULL ORDER BY id LIMIT 1] *)
Definition first_live (i : Z) (rows : list A) : option A :=
  find (is_live_row i) rows.

(** [WHERE deleted_at IS NULL] *)
Definition all_live (rows : list A) : list A :=
  filter (fun r => live (model r)) rows.

Definition max_id (rows : list A) : Z :=
  fold_right (fun r acc => Z.max (ID (model r)) acc) 0 rows.

(** AUTOINCREMENT: one more than every key the table has held; no handler
    removes a row, so that is one more than every key in the table. *)
Definition next_id (rows : list A) : Z := max_id rows + 1.

Fixpoint insert_row (r : A) (rows : list A) : list A :=
  match rows with
  | [] => [r]
  | x :: xs =>
      if ID (model r) <? ID (model x) then r :: rows
      else x :: insert_row r xs
  end.

(** [UPDATE .. SET <all columns> WHERE id = i AND deleted_at IS NULL] *)
Definition update_live (i : Z) (r' : A) (rows : list A) : list A :=
  map (fun x => if is_live_row i x then r' else x) rows.

(** [INSERT .. ON CONFLICT (id) DO UPDATE SET <all columns>] *)
Definition upsert (r' : A) (rows : list A) : list A :=
  if has_id (ID (model r')) rows
  then map (fun x => if is_row (ID (model r')) x then r' else x) rows
  else insert_row r' rows.

(** [UPDATE .. SET deleted_at = now WHERE id = i AND deleted_at IS NULL] *)
Definition soft_delete (now : Time) (i : Z) (rows : list A) : list A :=
  map (fun x => if is_live_row i x
                then set_model (mark_deleted now (model x)) x else x) rows.
End Table.

(** *** The two models and the store *)

(** [Tag], without its back reference [FAQs] (see the scope above). *)
Record Tag := mkTag {
  Tag_Model : Model;
  TagName : string;
  Category : string
}.

Record FAQ := mkFAQ {
  FAQ_Model : Model;
  Question : string;
  Answer : string;
  Tags : list Tag
}.

(** A row of table [faqs]: the columns of [FAQ]. *)
Record FAQRow := mkRow {
  row_model : Model;
  row_question : string;
  row_answer : string
}.

Definition set_tag_model (m : Model) (t : Tag) : Tag :=
  mkTag m (TagName t) (Category t).
Definition set_row_model (m : Model) (r : FAQRow) : FAQRow :=
  mkRow m (row_question r) (row_answer r).
Definition set_faq_model (m : Model) (f : FAQ) : FAQ :=
  mkFAQ m (Question f) (Answer f) (Tags f).

Definition row_of (f : FAQ) : FAQRow :=
  mkRow (FAQ_Model f) (Question f) (Answer f).
Definition faq_of (r : FAQRow) (ts : list Tag) : FAQ :=
  mkFAQ (row_model r) (row_question r) (row_answer r) ts.

Record Store := mkStore {
  faqs : list FAQRow;
  tags : list Tag;
  faq_tags : list (Z * Z)
}.

Definition Empty : Store := mkStore [] [] [].

(** The handle [*gorm.DB]: the store, and for each provider call still to
    come whether it fails ([Some cause]: store unreachable, locked, ...).
    A call that fails leaves the tables as they were. *)
Record DB := mkDB {
  store : Store;
  faults : list (option string)
}.

Definition tick (db : DB) : option string * DB :=
  match faults db with
  | [] => (None, db)
  | f :: fs => (f, mkDB (store db) fs)
  end.

Definition joined (f t : Z) (js : list (Z * Z)) : bool :=
  existsb (fun j => (fst j =? f) && (snd j =? t)) js.

(** Join rows are inserted with [ON CONFLICT DO NOTHING]. *)
Definition add_join (f t : Z) (js : list (Z * Z)) : list (Z * Z) :=
  if joined f t js then js else js ++ [(f, t)].

(** [Preload("Tags")]: the tags joined to the FAQ, soft-deleted ones
    excluded. *)
Definition preload_tags (s : Store) (f : Z) : list Tag :=
  filter (fun t => joined f (ID (Tag_Model t)) (faq_tags s))
         (all_live Tag_Model (tags s)).

(** Saving the [Tags] of an FAQ: each element is inserted with
    [ON CONFLICT DO NOTHING]; an element without key gets the next one.
    Returns the elements as written back and the table. *)
Fixpoint save_tags (now : Time) (ts : list Tag) (tbl : list Tag)
  : list Tag * list Tag :=
  match ts with
  | [] => ([], tbl)
  | t :: rest =>
      let m := stamp now (Tag_Model t) in
      if ID m =? 0 then
        let t' := set_tag_model (with_id (next_id Tag_Model tbl) m) t in
        let (back, tbl') := save_tags now rest (insert_row Tag_Model t' tbl) in
        (t' :: back, tbl')
      else
        let t' := set_tag_model m t in
        if has_id Tag_Model (ID m) tbl then
          let (back, tbl') := save_tags now rest tbl in (t' :: back, tbl')
        else
          let (back, tbl') := save_tags now rest (insert_row Tag_Model t' tbl) in
          (t' :: back, tbl')
  end.

Definition save_joins (f : Z) (ts : list Tag) (js : list (Z * Z))
  : list (Z * Z) :=
  fold_left (fun acc t => add_join f (ID (Tag_Model t)) acc) ts js.

(** The association step shared by create and update. *)
Definition save_associations (now : Time) (f : FAQ) (rows : list FAQRow)
    (s : Store) : FAQ * Store :=
  let (back, tbl) := save_tags now (Tags f) (tags s) in
  (mkFAQ (FAQ_Model f) (Question f) (Answer f) back,
   mkStore rows tbl (save_joins (ID (FAQ_Model f)) back (faq_tags s))).

Definition unique_failed (table : string) : error :=
  ErrStore (String.append "UNIQUE constraint failed: " table).

(** [INSERT INTO faqs], then the associations, in one transaction. *)
Definition insert_faq (now : Time) (f : FAQ) (s : Store)
  : error + FAQ * Store :=
  let m := stamp now (FAQ_Model f) in
  if ID m =? 0 then
    let f' := set_faq_model (with_id (next_id row_model (faqs s)) m) f in
    inr (save_associations now f' (insert_row row_model (row_of f') (faqs s)) s)
  else if has_id row_model (ID m) (faqs s) then inl (unique_failed "faqs.id")
  else
    let f' := set_faq_model m f in
    inr (save_associations now f' (insert_row row_model (row_of f') (faqs s)) s).

Definition insert_tag (now : Time) (t : Tag) (s : Store)
  : error + Tag * Store :=
  let m := stamp now (Tag_Model t) in
  if ID m =? 0 then
    let t' := set_tag_model (with_id (next_id Tag_Model (tags s)) m) t in
    inr (t', mkStore (faqs s) (insert_row Tag_Model t' (tags s)) (faq_tags s))
  else if has_id Tag_Model (ID m) (tags s) then inl (unique_failed "tags.id")
  else
    let t' := set_tag_model m t in
    inr (t', mkStore (faqs s) (insert_row Tag_Model t' (tags s)) (faq_tags s)).

(** *** The calls the handlers make.  Each returns the value written back
    to the caller's variable, the error if any, and the handle. *)

(** [db.First(&faq, id)] *)
Definition First_FAQ (id : Z) (db : DB) : (error + FAQ) * DB :=
  let (f, db') := tick db in
  match f with
  | Some cause => (inl (ErrStore cause), db')
  | None =>
      match first_live row_model id (faqs (store db')) with
      | None => (inl ErrRecordNotFound, db')
      | Some r => (inr (faq_of r []), db')
      end
  end.

(** [db.Preload("Tags").First(&faq, id)] *)
Definition Preload_First_FAQ (id : Z) (db : DB) : (error + FAQ) * DB :=
  let (f, db') := tick db in
  match f with
  | Some cause => (inl (ErrStore cause), db')
  | None =>
      match first_live row_model id (faqs (store db')) with
      | None => (inl ErrRecordNotFound, db')
      | Some r =>
          (inr (faq_of r (preload_tags (store db') (ID (row_model r)))), db')
      end
  end.

(** [db.Preload("Tags").Find(&faqs)] *)
Definition Preload_Find_FAQ (db : DB) : (error + list FAQ) * DB :=
  let (f, db') := tick db in
  match f with
  | Some cause => (inl (ErrStore cause), db')
  | None =>
      (inr (map (fun r => faq_of r (preload_tags (store db') (ID (row_model r))))
                (all_live row_model (faqs (store db')))), db')
  end.

(** [db.Create(&newFAQ)] *)
Definition Create_FAQ (now : Time) (f : FAQ) (db : DB)
  : FAQ * option error * DB :=
  let (flt, db') := tick db in
  match flt with
  | Some cause => (f, Some (ErrStore cause), db')
  | None =>
      match insert_faq now f (store db') with
      | inl e => (set_faq_model (stamp now (FAQ_Model f)) f, Some e, db')
      | inr (f', s') => (f', None, mkDB s' (faults db'))
      end
  end.

(** [db.Save(&faq)]: an insert when the key is zero; otherwise an update of
    every column, which falls back to an upsert when it changed no row. *)
Definition Save_FAQ (now : Time) (f : FAQ) (db : DB)
  : FAQ * option error * DB :=
  let (flt, db') := tick db in
  match flt with
  | Some cause => (f, Some (ErrStore cause), db')
  | None =>
      let s := store db' in
      if ID (FAQ_Model f) =? 0 then
        match insert_faq now f s with
        | inl e => (set_faq_model (stamp now (FAQ_Model f)) f, Some e, db')
        | inr (f', s') => (f', None, mkDB s' (faults db'))
        end
      else
        let f1 := set_faq_model (touch now (FAQ_Model f)) f in
        let i := ID (FAQ_Model f) in
        match first_live row_model i (faqs s) with
        | Some _ =>
            let (f2, s') :=
              save_associations now f1 (update_live row_model i (row_of f1) (faqs s)) s in
            (f2, None, mkDB s' (faults db'))
        | None =>
            let f1' := set_faq_model (stamp now (FAQ_Model f1)) f1 in
            let (f2, s') :=
              save_associations now f1' (upsert row_model (row_of f1') (faqs s)) s in
            (f2, None, mkDB s' (faults db'))
        end
  end.

(** [db.Delete(&faq)]: a soft delete, the model has [DeletedAt]. *)
Definition Delete_FAQ (now : Time) (f : FAQ) (db : DB) : option error * DB :=
  let (flt, db') := tick db in
  match flt with
  | Some cause => (Some (ErrStore cause), db')
  | None =>
      if ID (FAQ_Model f) =? 0 then (Some ErrMissingWhereClause, db')
      else
        let s := store db' in
        (None,
         mkDB (mkStore (soft_delete row_model set_row_model now
                                    (ID (FAQ_Model f)) (faqs s))
                       (tags s) (faq_tags s))
              (faults db'))
  end.

(** [db.First(&tag, id)] *)
Definition First_Tag (id : Z) (db : DB) : (error + Tag) * DB :=
  let (f, db') := tick db in
  match f with
  | Some cause => (inl (ErrStore cause), db')
  | None =>
      match first_live Tag_Model id (tags (store db')) with
      | None => (inl ErrRecordNotFound, db')
      | Some t => (inr t, db')
      end
  end.

(** [db.Find(&tags)] *)
Definition Find_Tag (db : DB) : (error + list Tag) * DB :=
  let (f, db') := tick db in
  match f with
  | Some cause => (inl (ErrStore cause), db')
  | None => (inr (all_live Tag_Model (tags (store db'))), db')
  end.

(** [db.Create(&newTag)] *)
Definition Create_Tag (now : Time) (t : Tag) (db : DB)
  : Tag * option error * DB :=
  let (flt, db') := tick db in
  match flt with
  | Some cause => (t, Some (ErrStore cause), db')
  | None =>
      match insert_tag now t (store db') with
      | inl e => (set_tag_model (stamp now (Tag_Model t)) t, Some e, db')
      | inr (t', s') => (t', None, mkDB s' (faults db'))
      end
  end.

(** [db.Save(&tag)], for a tag without [FAQs] to save. *)
Definition Save_Tag (now : Time) (t : Tag) (db : DB)
  : Tag * option error * DB :=
  let (flt, db') := tick db in
  match flt with
  | Some cause => (t, Some (ErrStore cause), db')
  | None =>
      let s := store db' in
      if ID (Tag_Model t) =? 0 then
        match insert_tag now t s with
        | inl e => (set_tag_model (stamp now (Tag_Model t)) t, Some e, db')
        | inr (t', s') => (t', None, mkDB s' (faults db'))
        end
      else
        let t1 := set_tag_model (touch now (Tag_Model t)) t in
        let i := ID (Tag_Model t) in
        match first_live Tag_Model i (tags s) with
        | Some _ =>
            (t1, None,
             mkDB (mkStore (faqs s) (update_live Tag_Model i t1 (tags s))
                           (faq_tags s)) (faults db'))
        | None =>
            let t1' := set_tag_model (stamp now (Tag_Model t1)) t1 in
            (t1', None,
             mkDB (mkStore (faqs s) (upsert Tag_Model t1' (tags s))
                           (faq_tags s)) (faults db'))
        end
  end.

(** [db.Delete(&tag)] *)
Definition Delete_Tag (now : Time) (t : Tag) (db : DB) : option error * DB :=
  let (flt, db') := tick db in
  match flt with
  | Some cause => (Some (ErrStore cause), db')
  | None =>
      if ID (Tag_Model t) =? 0 then (Some ErrMissingWhereClause, db')
      else
        let s := store db' in
        (None,
         mkDB (mkStore (faqs s)
                       (soft_delete Tag_Model set_tag_model now
                                    (ID (Tag_Model t)) (tags s))
                       (faq_tags s))
              (faults db'))
  end.

End Gorm.

(** ** Request bodies and their decoding onto a struct *)

Module Json.
Import Gorm.

(** What a body carries for the fields of [gorm.Model]. *)
Record ModelFields := mkModelFields {
  f_ID : option Z;
  f_CreatedAt : option Time;
  f_UpdatedAt : option Time;
  f_DeletedAt : option Time
}.

(** What a body carries for a tag; an [FAQs] array under it is outside
    the model. *)
Record TagFields := mkTagFields {
  t_Model : ModelFields;
  t_tag_name : option string;
  t_category : option string
}.

Record FAQFields := mkFAQFields {
  q_Model : ModelFields;
  q_question : option string;
  q_answer : option string;
  q_Tags : option (list TagFields)
}.

Inductive Body (P : Type) :=
| Malformed (cause : string)
| Decoded (p : P).
Arguments Malformed {P} cause.
Arguments Decoded {P} p.

(** The Go type of the key: [uint] in [gorm.Model], [int] where the struct
    declares its own [ID]. *)
Record IDKind := mkIDKind {
  id_type : string;
  id_min : Z;
  id_max : Z
}.

Definition uint_key : IDKind := mkIDKind "uint" 0 (2 ^ 64 - 1).
Definition int_key : IDKind := mkIDKind "int" (- 2 ^ 63) (2 ^ 63 - 1).

Definition in_range (k : IDKind) (n : Z) : bool :=
  (id_min k <=? n) && (n <=? id_max k).

(** A field the body carries overwrites; one it does not carry stays. *)
Definition overlay {A : Type} (o : option A) (old : A) : A :=
  match o with Some v => v | None => old end.

Definition overlay_deleted (o : option Time) (old : option Time)
  : option Time :=
  match o with Some v => Some v | None => old end.

Definition bind_model (k : IDKind) (field : string) (p : ModelFields)
    (m : Model) : error + Model :=
  let m' := mkModel (overlay (f_ID p) (ID m))
                    (overlay (f_CreatedAt p) (CreatedAt m))
                    (overlay (f_UpdatedAt p) (UpdatedAt m))
                    (overlay_deleted (f_DeletedAt p) (DeletedAt m)) in
  match f_ID p with
  | Some n => if in_range k n then inr m'
              else inl (ErrUnmarshalType field (id_type k) n)
  | None => inr m'
  end.

Definition bind_tag (k : IDKind) (p : TagFields) (t : Tag) : error + Tag :=
  match bind_model k "Tag.ID" (t_Model p) (Tag_Model t) with
  | inl e => inl e
  | inr m => inr (mkTag m (overlay (t_tag_name p) (TagName t))
                          (overlay (t_category p) (Category t)))
  end.

Definition zero_model : Model := mkModel 0 0 0 None.
Definition zero_tag : Tag := mkTag zero_model "" "".
Definition zero_faq : FAQ := mkFAQ zero_model "" "" [].

(** A JSON array replaces the slice; each element is decoded onto a fresh
    [Tag]. *)
Fixpoint bind_tags (k : IDKind) (ps : list TagFields) : error + list Tag :=
  match ps with
  | [] => inr []
  | p :: rest =>
      match bind_tag k p zero_tag with
      | inl e => inl e
      | inr t =>
          match bind_tags k rest with
          | inl e => inl e
          | inr ts => inr (t :: ts)
          end
      end
  end.

Definition bind_faq (k : IDKind) (p : FAQFields) (f : FAQ) : error + FAQ :=
  match bind_model k "FAQ.ID" (q_Model p) (FAQ_Model f) with
  | inl e => inl e
  | inr m =>
      match q_Tags p with
      | None => inr (mkFAQ m (overlay (q_question p) (Question f))
                             (overlay (q_answer p) (Answer f)) (Tags f))
      | Some ps =>
          match bind_tags k ps with
          | inl e => inl e
          | inr ts => inr (mkFAQ m (overlay (q_question p) (Question f))
                                   (overlay (q_answer p) (Answer f)) ts)
          end
      end
  end.

(** [c.ShouldBindJSON(&obj)] *)
Definition ShouldBindJSON {P T : Type} (bind : P -> T -> error + T)
    (body : Body P) (obj : T) : error + T :=
  match body with
  | Malformed cause => inl (ErrSyntax cause)
  | Decoded p => bind p obj
  end.

(** A body with nothing but a question and an answer. *)
Definition no_model : ModelFields := mkModelFields None None None None.
Definition question_only (q : string) : FAQFields :=
  mkFAQFields no_model (Some q) None None.
Definition qa (q a : string) : FAQFields :=
  mkFAQFields no_model (Some q) (Some a) None.

End Json.

(** ** Responses *)

Module Http.
Import Gorm.

Definition StatusOK : Z := 200.
Definition StatusCreated : Z := 201.
Definition StatusBadRequest : Z := 400.
Definition StatusNotFound : Z := 404.
Definition StatusInternalServerError : Z := 500.

(** [gin.H] with its single entry. *)
Inductive H :=
| H_error (msg : string)
| H_data (msg : string)
| H_data_true.

Inductive Obj :=
| oH (h : H)
| oFAQ (f : FAQ)
| oFAQs (l : list FAQ)
| oTag (t : Tag)
| oTags (l : list Tag).

(** [c.JSON(code, obj)] *)
Record Response := JSON {
  code : Z;
  obj : Obj
}.

End Http.

(** ** The router *)

Module Gin.

Inductive Method := GET | POST | PUT | DELETE | PATCH | HEAD | OPTIONS.

Definition method_eqb (a b : Method) : bool :=
  match a, b with
  | GET, GET | POST, POST | PUT, PUT | DELETE, DELETE
  | PATCH, PATCH | HEAD, HEAD | OPTIONS, OPTIONS => true
  | _, _ => false
  end.

Section Engine.
(** [H]: what a route is bound to. *)
Context {H : Type}.

Record RouteInfo := mkRoute {
  route_method : Method;
  route_path : string;
  route_handler : H
}.

Definition Engine := list RouteInfo.

(** [gin.Default()] *)
Definition Default : Engine := [].

Definition Handle (m : Method) (path : string) (h : H) (r : Engine)
  : Engine := r ++ [mkRoute m path h].

(** The segments of a path, cut at each slash. *)
Fixpoint segments (s : string) : list string :=
  match s with
  | EmptyString => [""]
  | String c rest =>
      if Ascii.eqb c "/"%char then "" :: segments rest
      else match segments rest with
           | h :: t => String c h :: t
           | [] => [String c ""]
           end
  end.

(** A [:name] segment takes any non-empty segment, another one only
    itself. *)
Definition segment_matches (pat seg : string) : bool :=
  match pat with
  | String ":"%char _ => negb (String.eqb seg "")
  | _ => String.eqb pat seg
  end.

Fixpoint segments_match (pats segs : list string) : bool :=
  match pats, segs with
  | [], [] => true
  | p :: ps, x :: xs => segment_matches p x && segments_match ps xs
  | _, _ => false
  end.

Definition route_matches (m : Method) (path : string) (r : RouteInfo)
  : bool :=
  method_eqb (route_method r) m
  && segments_match (segments (route_path r)) (segments path).

(** The handler a request is dispatched to, if any. *)
Definition lookup (r : Engine) (m : Method) (path : string) : option H :=
  option_map route_handler (find (route_matches m path) r).

(** The method and path template of every route, in registration
    order. *)
Definition Routes (r : Engine) : list (Method * string) :=
  map (fun x => (route_method x, route_path x)) r.
End Engine.
Arguments RouteInfo : clear implicits.
Arguments Engine : clear implicits.

End Gin.

(** ** The handlers of [main.go] *)

Module Main.
Import Gorm Json Http.

(** createFAQHandler handles the creation of a new FAQ. *)
Definition createFAQHandler (now : Time) (body : Body FAQFields) (db : DB)
  : Response * DB :=
  match ShouldBindJSON (bind_faq uint_key) body zero_faq with
  | inl _ => (JSON StatusBadRequest (oH (H_error "Invalid request payload")), db)
  | inr newFAQ =>
      match Create_FAQ now newFAQ db with
      | (_, Some _, db') =>
          (JSON StatusInternalServerError (oH (H_error "Failed to create FAQ")), db')
      | (newFAQ', None, db') => (JSON StatusCreated (oFAQ newFAQ'), db')
      end
  end.

(** preloadFAQsHandler preloads FAQs with their associated tags. *)
Definition preloadFAQsHandler (db : DB) : Response * DB :=
  match Preload_Find_FAQ db with
  | (inl _, db') =>
      (JSON StatusInternalServerError (oH (H_error "Failed to fetch FAQs")), db')
  | (inr faqs, db') => (JSON StatusOK (oFAQs faqs), db')
  end.

(** readFAQHandler retrieves a specific FAQ by ID. *)
Definition readFAQHandler (id : Z) (db : DB) : Response * DB :=
  match Preload_First_FAQ id db with
  | (inl _, db') => (JSON StatusNotFound (oH (H_error "Record not found")), db')
  | (inr faq, db') => (JSON StatusOK (oFAQ faq), db')
  end.

(** updateFAQHandler updates a specific FAQ by ID. *)
Definition updateFAQHandler (now : Time) (id : Z) (body : Body FAQFields)
    (db : DB) : Response * DB :=
  match First_FAQ id db with
  | (inl _, db1) => (JSON StatusNotFound (oH (H_error "Record not found")), db1)
  | (inr faq, db1) =>
      match ShouldBindJSON (bind_faq uint_key) body faq with
      | inl _ =>
          (JSON StatusBadRequest (oH (H_error "Invalid request payload")), db1)
      | inr faq1 =>
          let '(faq2, _, db2) := Save_FAQ now faq1 db1 in
          (JSON StatusOK (oFAQ faq2), db2)
      end
  end.

(** deleteFAQHandler deletes a specific FAQ by ID. *)
Definition deleteFAQHandler (now : Time) (id : Z) (db : DB) : Response * DB :=
  match First_FAQ id db with
  | (inl _, db1) => (JSON StatusNotFound (oH (H_error "Record not found")), db1)
  | (inr faq, db1) =>
      let '(_, db2) := Delete_FAQ now faq db1 in
      (JSON StatusOK (oH (H_data "FAQ deleted successfully")), db2)
  end.

(** createTagHandler handles the creation of a new tag. *)
Definition createTagHandler (now : Time) (body : Body TagFields) (db : DB)
  : Response * DB :=
  match ShouldBindJSON (bind_tag uint_key) body zero_tag with
  | inl _ => (JSON StatusBadRequest (oH (H_error "Invalid request payload")), db)
  | inr newTag =>
      match Create_Tag now newTag db with
      | (_, Some _, db') =>
          (JSON StatusInternalServerError (oH (H_error "Failed to create tag")), db')
      | (newTag', None, db') => (JSON StatusCreated (oTag newTag'), db')
      end
  end.

(** getTagsHandler retrieves all tags. *)
Definition getTagsHandler (db : DB) : Response * DB :=
  match Find_Tag db with
  | (inl _, db') =>
      (JSON StatusInternalServerError (oH (H_error "Failed to fetch tags")), db')
  | (inr tags, db') => (JSON StatusOK (oTags tags), db')
  end.

(** updateTagHandler updates a specific tag by ID. *)
Definition updateTagHandler (now : Time) (id : Z) (body : Body TagFields)
    (db : DB) : Response * DB :=
  match First_Tag id db with
  | (inl _, db1) => (JSON StatusNotFound (oH (H_error "Tag not found")), db1)
  | (inr tag, db1) =>
      match ShouldBindJSON (bind_tag uint_key) body tag with
      | inl _ =>
          (JSON StatusBadRequest (oH (H_error "Invalid request payload")), db1)
      | inr tag1 =>
          let '(tag2, _, db2) := Save_Tag now tag1 db1 in
          (JSON StatusOK (oTag tag2), db2)
      end
  end.

(** deleteTagHandler deletes a specific tag by ID. *)
Definition deleteTagHandler (now : Time) (id : Z) (db : DB) : Response * DB :=
  match First_Tag id db with
  | (inl _, db1) => (JSON StatusNotFound (oH (H_error "Tag not found")), db1)
  | (inr tag, db1) =>
      let '(_, db2) := Delete_Tag now tag db1 in
      (JSON StatusOK (oH (H_data "Tag deleted successfully")), db2)
  end.

(** What the routes are bound to. *)
Inductive HandlerFunc :=
| h_createFAQ | h_preloadFAQs | h_readFAQ | h_updateFAQ | h_deleteFAQ
| h_createTag | h_getTags | h_updateTag | h_deleteTag.

(** setupRouter initializes the Gin router and sets up the routes. *)
Definition setupRouter : Gin.Engine HandlerFunc :=
  let r := Gin.Default in
  let r := Gin.Handle Gin.POST "/faqs" h_createFAQ r in
  let r := Gin.Handle Gin.GET "/faqs" h_preloadFAQs r in
  let r := Gin.Handle Gin.GET "/faqs/:id" h_readFAQ r in
  let r := Gin.Handle Gin.PUT "/faqs/:id" h_updateFAQ r in
  let r := Gin.Handle Gin.DELETE "/faqs/:id" h_deleteFAQ r in
  let r := Gin.Handle Gin.POST "/tags" h_createTag r in
  let r := Gin.Handle Gin.GET "/tags" h_getTags r in
  let r := Gin.Handle Gin.PUT "/tags/:id" h_updateTag r in
  let r := Gin.Handle Gin.DELETE "/tags/:id" h_deleteTag r in
  r.

End Main.

(** ** The handlers of the earlier variant

    Its structs declare [ID int] with JSON name [id] next to the embedded
    [gorm.Model]; that field is the primary key.  What the handlers write
    with [log.Printf] is not part of the model. *)

Module Earlier.
Import Gorm Json Http.

Definition createFAQ (now : Time) (body : Body FAQFields) (db : DB)
  : Response * DB :=
  match ShouldBindJSON (bind_faq int_key) body zero_faq with
  | inl _ => (JSON StatusBadRequest (oH (H_error "Binding JSON error")), db)
  | inr newFAQ =>
      match Create_FAQ now newFAQ db with
      | (_, Some _, db') =>
          (JSON StatusInternalServerError
                (oH (H_error "Failed to save new FAQ.")), db')
      | (newFAQ', None, db') => (JSON StatusCreated (oFAQ newFAQ'), db')
      end
  end.

Definition PreloadFAQs (db : DB) : Response * DB :=
  match Preload_Find_FAQ db with
  | (inl _, db') =>
      (JSON StatusInternalServerError (oH (H_error "Failed to fetch FAQs")), db')
  | (inr faqs, db') => (JSON StatusOK (oFAQs faqs), db')
  end.

Definition ReadFAQ (id : Z) (db : DB) : Response * DB :=
  match Preload_First_FAQ id db with
  | (inl _, db') => (JSON StatusNotFound (oH (H_error "Record not found!")), db')
  | (inr faq, db') => (JSON StatusOK (oFAQ faq), db')
  end.

Definition UpdateFAQ (now : Time) (id : Z) (body : Body FAQFields) (db : DB)
  : Response * DB :=
  match First_FAQ id db with
  | (inl _, db1) => (JSON StatusNotFound (oH (H_error "Record not found!")), db1)
  | (inr faq, db1) =>
      match ShouldBindJSON (bind_faq int_key) body faq with
      | inl err => (JSON StatusBadRequest (oH (H_error (Error err))), db1)
      | inr faq1 =>
          let '(faq2, _, db2) := Save_FAQ now faq1 db1 in
          (JSON StatusOK (oFAQ faq2), db2)
      end
  end.

Definition DeleteFAQ (now : Time) (id : Z) (db : DB) : Response * DB :=
  match First_FAQ id db with
  | (inl _, db1) => (JSON StatusNotFound (oH (H_error "Record not found!")), db1)
  | (inr faq, db1) =>
      match Delete_FAQ now faq db1 with
      | (Some _, db2) =>
          (JSON StatusInternalServerError
                (oH (H_error "Failed to delete FAQ")), db2)
      | (None, db2) => (JSON StatusOK (oH H_data_true), db2)
      end
  end.

Definition createTag (now : Time) (body : Body TagFields) (db : DB)
  : Response * DB :=
  match ShouldBindJSON (bind_tag int_key) body zero_tag with
  | inl err => (JSON StatusBadRequest (oH (H_error (Error err))), db)
  | inr newTag =>
      match Create_Tag now newTag db with
      | (_, Some _, db') =>
          (JSON StatusInternalServerError (oH (H_error "Failed to create tag")), db')
      | (newTag', None, db') => (JSON StatusCreated (oTag newTag'), db')
      end
  end.


Definition UpdateTag (now : Time) (id : Z) (body : Body TagFields) (db : DB)
  : Response * DB :=
  match First_Tag id db with
  | (inl _, db1) => (JSON StatusNotFound (oH (H_error "Tag not found!")), db1)
  | (inr tag, db1) =>
      match ShouldBindJSON (bind_tag int_key) body tag with
      | inl _ =>
          (JSON StatusBadRequest (oH (H_error "Invalid request payload")), db1)
      | inr tag1 =>
          match Save_Tag now tag1 db1 with
          | (_, Some _, db2) =>
              (JSON StatusInternalServerError
                    (oH (H_error "Failed to update tag")), db2)
          | (tag2, None, db2) => (JSON StatusOK (oTag tag2), db2)
          end
      end
  end.

Definition DeleteTag (now : Time) (id : Z) (db : DB) : Response * DB :=
  match First_Tag id db with
  | (inl _, db1) => (JSON StatusNotFound (oH (H_error "Tag not found!")), db1)
  | (inr tag, db1) =>
      match Delete_Tag now tag db1 with
      | (Some _, db2) =>
          (JSON StatusInternalServerError
                (oH (H_error "Failed to delete tag")), db2)
      | (None, db2) => (JSON StatusOK (oH H_data_true), db2)
      end
  end.

Inductive HandlerFunc :=
| h_createFAQ | h_PreloadFAQs | h_ReadFAQ | h_UpdateFAQ | h_DeleteFAQ
| h_createTag | h_GetTags | h_UpdateTag | h_DeleteTag | h_GetFAQsByTag.

(** The routes registered by [main]. *)
Definition main_router : Gin.Engine HandlerFunc :=
  let r := Gin.Default in
  let r := Gin.Handle Gin.POST "/faqs" h_createFAQ r in
  let r := Gin.Handle Gin.GET "/faqs" h_PreloadFAQs r in
  let r := Gin.Handle Gin.GET "/faqs/:id" h_ReadFAQ r in
  let r := Gin.Handle Gin.PUT "/faqs/:id" h_UpdateFAQ r in
  let r := Gin.Handle Gin.DELETE "/faqs/:id" h_DeleteFAQ r in
  let r := Gin.Handle Gin.POST "/tags" h_createTag r in
  let r := Gin.Handle Gin.GET "/tags" h_GetTags r in
  let r := Gin.Handle Gin.PUT "/tags/:id" h_UpdateTag r in
  let r := Gin.Handle Gin.DELETE "/tags/:id" h_DeleteTag r in
  let r := Gin.Handle Gin.GET "/faqs_by_tag/:tag" h_GetFAQsByTag r in
  r.

End Earlier.

(** ** The HTTP surface as the specification tabulates it *)

Module Spec.

Definition http_surface : list (Gin.Method * string) :=
  [ (Gin.POST, "/faqs");
    (Gin.GET, "/faqs");
    (Gin.GET, "/faqs/:id");
    (Gin.PUT, "/faqs/:id");
    (Gin.DELETE, "/faqs/:id");
    (Gin.POST, "/tags");
    (Gin.GET, "/tags");
    (Gin.PUT, "/tags/:id");
    (Gin.DELETE, "/tags/:id") ].

(** A request is on the surface when some line of the table has its method
    and a template its path instantiates. *)
Definition on_surface (m : Gin.Method) (path : string) : bool :=
  existsb (fun e => Gin.method_eqb (fst e) m
                    && Gin.segments_match (Gin.segments (snd e))
                                          (Gin.segments path))
          http_surface.

End Spec.

(** ** Vocabulary of the statements *)

Module Props.
Import Gorm Json Http.

(** The next [n] provider calls do not fail. *)
Definition calm (n : nat) (fs : list (option string)) : bool :=
  forallb (fun f => match f with None => true | Some _ => false end)
          (firstn n fs).

(** Every tag reference of the body names the key of a stored tag row. *)
Definition refs_known (tbl : list Tag) (ps : list TagFields) : bool :=
  forallb (fun p => match f_ID (t_Model p) with
                    | Some n => negb (n =? 0) && has_id Tag_Model n tbl
                    | None => false
                    end) ps.

Definition body_refs_known (tbl : list Tag) (body : Body FAQFields) : bool :=
  match body with
  | Malformed _ => true
  | Decoded p => match q_Tags p with
                 | None => true
                 | Some ps => refs_known tbl ps
                 end
  end.

Definition tags_known (tbl : list Tag) (ts : list Tag) : bool :=
  forallb (fun t => negb (ID (Tag_Model t) =? 0)
                    && has_id Tag_Model (ID (Tag_Model t)) tbl) ts.

(** Every row of the tag table with this key is soft-deleted. *)
Definition tag_gone (t : Z) (s : Store) : Prop :=
  forall x, In x (tags s) -> ID (Tag_Model x) = t -> live (Tag_Model x) = false.


Definition faq_keys (s : Store) : list Z :=
  map (fun r => ID (row_model r)) (faqs s).
Definition tag_keys (s : Store) : list Z :=
  map (fun t => ID (Tag_Model t)) (tags s).

(** A store with one FAQ and one tag joined to it, used in examples. *)
Definition sample : Store :=
  mkStore [mkRow (mkModel 1 10 10 None) "Q1" "A1"]
          [mkTag (mkModel 1 10 10 None) "billing" "finance"]
          [(1, 1)].

(** The handlers that update an FAQ, one per variant. *)
Definition FAQUpdater := Time -> Z -> Body FAQFields -> DB -> Response * DB.

(** Update binds the body onto the loaded record and saves the result:
    the response carries, for question and answer, the body's value where
    the body has one and the stored value where it has none; and when the
    body leaves key and deletion time alone and no call fails, so does the
    stored row afterwards. *)
Definition merges_onto_loaded (k : IDKind) (update : FAQUpdater) : Prop :=
  forall now id p r f1 db,
    first_live row_model id (faqs (store db)) = Some r ->
    calm 1 (faults db) = true ->
    bind_faq k p (faq_of r []) = inr f1 ->
    exists f2 db2,
      update now id (Decoded p) db = (JSON StatusOK (oFAQ f2), db2)
      /\ Question f2 = overlay (q_question p) (row_question r)
      /\ Answer f2 = overlay (q_answer p) (row_answer r)
      /\ (id <> 0 -> f_ID (q_Model p) = None ->
          f_DeletedAt (q_Model p) = None -> calm 2 (faults db) = true ->
          exists r2,
            first_live row_model id (faqs (store db2)) = Some r2
            /\ row_question r2 = overlay (q_question p) (row_question r)
            /\ row_answer r2 = overlay (q_answer p) (row_answer r)).


(** No row has key zero: so it is in the empty store, and every request
    keeps it so. *)
Definition row_keys_nonzero (rows : list FAQRow) : Prop :=
  forall r, In r rows -> ID (row_model r) <> 0.
Definition tag_keys_nonzero (tbl : list Tag) : Prop :=
  forall t, In t tbl -> ID (Tag_Model t) <> 0.
Definition keys_nonzero (s : Store) : Prop :=
  row_keys_nonzero (faqs s) /\ tag_keys_nonzero (tags s).

(** The segment holds no slash. *)
Fixpoint slash_free (s : string) : bool :=
  match s with
  | EmptyString => true
  | String c rest => negb (Ascii.eqb c "/") && slash_free rest
  end.

(** Primary keys are unique in both tables, and so are the pairs of the
    join table. *)
Definition keys_unique (s : Store) : Prop :=
  NoDup (faq_keys s) /\ NoDup (tag_keys s) /\ NoDup (faq_tags s).


(** From [s] to [s'] no key of either table and no pair of the join table
    has gone. *)
Definition grows (s s' : Store) : Prop :=
  incl (faq_keys s) (faq_keys s')
  /\ incl (tag_keys s) (tag_keys s')
  /\ incl (faq_tags s) (faq_tags s').

End Props.

(** ** Facts about tables *)

Module TableFacts.
Import Gorm.

Section Rows.
Context {A : Type}.
Variable model : A -> Model.
Variable set_model : Model -> A -> A.
Hypothesis model_set : forall m x, model (set_model m x) = m.

Lemma first_live_found i rows r :
  first_live model i rows = Some r ->
  In r rows /\ ID (model r) = i /\ live (model r) = true.
Proof.
  unfold first_live. intros Hf. apply find_some in Hf.
  destruct Hf as [Hin Hb]. unfold is_live_row in Hb.
  apply andb_true_iff in Hb. destruct Hb as [Hid Hl].
  apply Z.eqb_eq in Hid. auto.
Qed.


Lemma mark_deleted_not_live now m : live (mark_deleted now m) = false.
Proof. reflexivity. Qed.

Lemma soft_delete_keys now i rows :
  map (fun r => ID (model r)) (soft_delete model set_model now i rows)
  = map (fun r => ID (model r)) rows.
Proof.
  unfold soft_delete. rewrite map_map. apply map_ext. intros x.
  destruct (is_live_row model i x); [rewrite model_set|]; reflexivity.
Qed.

Lemma soft_delete_length now i rows :
  List.length (soft_delete model set_model now i rows) = List.length rows.
Proof. unfold soft_delete. apply length_map. Qed.

(** After the soft delete no row with that key is live. *)
Lemma soft_delete_gone now i rows x :
  In x (soft_delete model set_model now i rows) ->
  ID (model x) = i -> live (model x) = false.
Proof.
  unfold soft_delete. intros Hin Hid. apply in_map_iff in Hin.
  destruct Hin as [y [Hy _]].
  destruct (is_live_row model i y) eqn:Hl.
  - subst x. rewrite model_set. reflexivity.
  - subst y. unfold is_live_row in Hl. rewrite Hid, Z.eqb_refl in Hl.
    exact Hl.
Qed.



Lemma soft_delete_others now i rows x :
  In x rows -> is_live_row model i x = false ->
  In x (soft_delete model set_model now i rows).
Proof.
  intros Hin Hb. unfold soft_delete. apply in_map_iff.
  exists x. rewrite Hb. auto.
Qed.


Lemma max_id_bound rows r : In r rows -> ID (model r) <= max_id model rows.
Proof.
  induction rows as [|x xs IH]; simpl; intros Hin; [contradiction|].
  destruct Hin as [->|Hin]; [lia|]. specialize (IH Hin). lia.
Qed.

Lemma max_id_nonneg rows : 0 <= max_id model rows.
Proof. induction rows as [|x xs IH]; simpl; lia. Qed.

Lemma next_id_positive rows : 0 < next_id model rows.
Proof. unfold next_id. pose proof (max_id_nonneg rows). lia. Qed.

Lemma has_id_false i rows :
  has_id model i rows = false <-> forall r, In r rows -> ID (model r) <> i.
Proof.
  unfold has_id, is_row. split.
  - intros He r Hin Hid.
    assert (existsb (fun r0 => ID (model r0) =? i) rows = true) as Ht.
    { apply existsb_exists. exists r. split; [exact Hin|]. now apply Z.eqb_eq. }
    congruence.
  - intros Hall. destruct (existsb _ rows) eqn:He; [|reflexivity].
    apply existsb_exists in He. destruct He as [r [Hin Hb]].
    apply Z.eqb_eq in Hb. exfalso. exact (Hall r Hin Hb).
Qed.

Lemma has_id_true i rows :
  has_id model i rows = true <-> exists r, In r rows /\ ID (model r) = i.
Proof.
  unfold has_id, is_row. rewrite existsb_exists.
  split; intros [r [Hin Hb]]; exists r; split; auto; now apply Z.eqb_eq.
Qed.

(** The next key is the key of no row. *)
Lemma next_id_fresh rows : has_id model (next_id model rows) rows = false.
Proof.
  apply has_id_false. intros r Hin. pose proof (max_id_bound rows r Hin).
  unfold next_id. lia.
Qed.

Lemma in_insert_row r rows x :
  In x (insert_row model r rows) <-> x = r \/ In x rows.
Proof.
  induction rows as [|y ys IH]; simpl.
  - intuition.
  - destruct (ID (model r) <? ID (model y)); simpl; rewrite ?IH; intuition.
Qed.

Lemma insert_row_length r rows :
  List.length (insert_row model r rows) = S (List.length rows).
Proof.
  induction rows as [|y ys IH]; simpl; [reflexivity|].
  destruct (ID (model r) <? ID (model y)); simpl; congruence.
Qed.

(** A live row inserted under a fresh key is the one found by its key. *)
Lemma first_live_inserted r rows :
  has_id model (ID (model r)) rows = false -> live (model r) = true ->
  first_live model (ID (model r)) (insert_row model r rows) = Some r.
Proof.
  intros Hfresh Hl. unfold first_live.
  induction rows as [|y ys IH]; simpl.
  - unfold is_live_row. rewrite Z.eqb_refl, Hl. reflexivity.
  - simpl in Hfresh. apply orb_false_iff in Hfresh.
    destruct Hfresh as [Hy Hys]. unfold is_row in Hy.
    destruct (ID (model r) <? ID (model y)); simpl.
    + unfold is_live_row at 1. rewrite Z.eqb_refl, Hl. reflexivity.
    + unfold is_live_row at 1. rewrite Hy. simpl. apply IH. exact Hys.
Qed.

(** The update writes the new columns into the row found by the key. *)
Lemma first_live_updated i r' rows r :
  first_live model i rows = Some r ->
  ID (model r') = i -> live (model r') = true ->
  first_live model i (update_live model i r' rows) = Some r'.
Proof.
  unfold first_live, update_live. intros Hf Hid Hl.
  induction rows as [|y ys IH]; simpl in *; [discriminate|].
  destruct (is_live_row model i y) eqn:Hy.
  - unfold is_live_row. rewrite Hid, Z.eqb_refl, Hl. reflexivity.
  - rewrite Hy. apply IH. exact Hf.
Qed.

Lemma update_live_keeps_dead i r' rows x :
  In x rows -> live (model x) = false -> In x (update_live model i r' rows).
Proof.
  intros Hin Hl. unfold update_live. apply in_map_iff. exists x.
  unfold is_live_row. rewrite Hl, andb_false_r. auto.
Qed.
Lemma in_update_live i r' rows x :
  In x (update_live model i r' rows) -> x = r' \/ In x rows.
Proof.
  unfold update_live. intros Hin. apply in_map_iff in Hin.
  destruct Hin as [y [Hy Hin]].
  destruct (is_live_row model i y); subst; auto.
Qed.

Lemma in_upsert r' rows x :
  In x (upsert model r' rows) -> x = r' \/ In x rows.
Proof.
  unfold upsert. destruct (has_id model (ID (model r')) rows).
  - intros Hin. apply in_map_iff in Hin. destruct Hin as [y [Hy Hin]].
    destruct (is_row model (ID (model r')) y); subst; auto.
  - intros Hin. apply in_insert_row in Hin. exact Hin.
Qed.

Lemma in_soft_delete now i rows x :
  In x (soft_delete model set_model now i rows) ->
  exists y, In y rows /\ ID (model y) = ID (model x).
Proof.
  unfold soft_delete. intros Hin. apply in_map_iff in Hin.
  destruct Hin as [y [Hy Hin]]. exists y. split; [exact Hin|].
  destruct (is_live_row model i y); subst; [rewrite model_set|]; reflexivity.
Qed.

Lemma first_live_update_other i j r' rows :
  ID (model r') = i -> j <> i ->
  first_live model j (update_live model i r' rows) = first_live model j rows.
Proof.
  intros Hid Hne. unfold first_live, update_live.
  induction rows as [|y ys IH]; simpl; [reflexivity|].
  destruct (is_live_row model i y) eqn:Hy.
  - unfold is_live_row in Hy. apply andb_true_iff in Hy.
    destruct Hy as [Hy _]. apply Z.eqb_eq in Hy.
    assert (is_live_row model j r' = false) as H1.
    { unfold is_live_row. rewrite Hid.
      destruct (Z.eqb_spec i j); [congruence|reflexivity]. }
    assert (is_live_row model j y = false) as H2.
    { unfold is_live_row. rewrite Hy.
      destruct (Z.eqb_spec i j); [congruence|reflexivity]. }
    rewrite H1, H2. exact IH.
  - rewrite IH. reflexivity.
Qed.

Lemma update_live_keys i r' rows :
  ID (model r') = i ->
  map (fun r => ID (model r)) (update_live model i r' rows)
  = map (fun r => ID (model r)) rows.
Proof.
  intros Hid. unfold update_live. rewrite map_map. apply map_ext_in.
  intros y _. destruct (is_live_row model i y) eqn:Hy; [|reflexivity].
  unfold is_live_row in Hy. apply andb_true_iff in Hy. destruct Hy as [Hy _].
  apply Z.eqb_eq in Hy. congruence.
Qed.

Lemma insert_row_keys_in r rows k :
  In k (map (fun x => ID (model x)) (insert_row model r rows))
  <-> k = ID (model r) \/ In k (map (fun x => ID (model x)) rows).
Proof.
  rewrite !in_map_iff. split.
  - intros [x [Hk Hin]]. apply in_insert_row in Hin.
    destruct Hin as [->|Hin]; [left; congruence|right; eauto].
  - intros [->|[x [Hk Hin]]].
    + exists r. split; [reflexivity|]. apply in_insert_row. auto.
    + exists x. split; [exact Hk|]. apply in_insert_row. auto.
Qed.

Lemma insert_row_keys_nodup r rows :
  has_id model (ID (model r)) rows = false ->
  NoDup (map (fun x => ID (model x)) rows) ->
  NoDup (map (fun x => ID (model x)) (insert_row model r rows)).
Proof.
  intros Hfresh. induction rows as [|y ys IH]; simpl; intros Hnd.
  - constructor; [intros []|constructor].
  - simpl in Hfresh. apply orb_false_iff in Hfresh.
    destruct Hfresh as [Hy Hys].
    destruct (ID (model r) <? ID (model y)); simpl.
    + constructor; [|exact Hnd]. simpl. intros [Heq|Hin].
      * unfold is_row in Hy. apply Z.eqb_neq in Hy. congruence.
      * apply in_map_iff in Hin. destruct Hin as [x [Hx Hin]].
        exact (proj1 (has_id_false _ _) Hys x Hin Hx).
    + inversion Hnd as [|k ks Hnotin Hnd']; subst.
      constructor; [|apply IH; assumption].
      intros Hin. apply insert_row_keys_in in Hin.
      destruct Hin as [Heq|Hin]; [|contradiction].
      unfold is_row in Hy. apply Z.eqb_neq in Hy. congruence.
Qed.

Lemma upsert_keys_nodup r' rows :
  NoDup (map (fun x => ID (model x)) rows) ->
  NoDup (map (fun x => ID (model x)) (upsert model r' rows)).
Proof.
  intros Hnd. unfold upsert.
  destruct (has_id model (ID (model r')) rows) eqn:Hh.
  - replace (map (fun x => ID (model x))
               (map (fun x => if is_row model (ID (model r')) x then r' else x)
                    rows))
      with (map (fun x => ID (model x)) rows); [exact Hnd|].
    rewrite map_map. apply map_ext_in. intros y _.
    destruct (is_row model (ID (model r')) y) eqn:Hy; [|reflexivity].
    unfold is_row in Hy. apply Z.eqb_eq in Hy. congruence.
  - apply insert_row_keys_nodup; assumption.
Qed.

Lemma all_live_in rows x :
  In x (all_live model rows) <-> In x rows /\ live (model x) = true.
Proof. unfold all_live. apply filter_In. Qed.


(** A soft delete leaves every row under another key, and every row that
    was deleted already, as it is. *)
Lemma soft_delete_frame now i rows x :
  In x rows -> ID (model x) <> i \/ live (model x) = false ->
  In x (soft_delete model set_model now i rows).
Proof.
  intros Hin Hx. apply soft_delete_others; [exact Hin|].
  unfold is_live_row. destruct Hx as [Hx|Hx].
  - destruct (Z.eqb_spec (ID (model x)) i); [contradiction|reflexivity].
  - rewrite Hx. apply andb_false_r.
Qed.

Lemma upsert_keys_incl r' rows :
  incl (map (fun x => ID (model x)) rows)
       (map (fun x => ID (model x)) (upsert model r' rows)).
Proof.
  intros k Hin. unfold upsert.
  destruct (has_id model (ID (model r')) rows).
  - apply in_map_iff in Hin. destruct Hin as [y [Hk Hin]].
    apply in_map_iff.
    exists (if is_row model (ID (model r')) y then r' else y). split.
    + destruct (is_row model (ID (model r')) y) eqn:Hy; [|exact Hk].
      unfold is_row in Hy. apply Z.eqb_eq in Hy. congruence.
    + apply in_map_iff. exists y. auto.
  - apply insert_row_keys_in. right. exact Hin.
Qed.

Lemma nodup_keys_filter (p : A -> bool) rows :
  NoDup (map (fun x => ID (model x)) rows) ->
  NoDup (map (fun x => ID (model x)) (filter p rows)).
Proof.
  induction rows as [|y ys IH]; simpl; intros Hnd; [constructor|].
  inversion Hnd as [|k ks Hnotin Hnd']; subst.
  destruct (p y); simpl; [|apply IH; exact Hnd'].
  constructor; [|apply IH; exact Hnd'].
  intros Hin. apply Hnotin. apply in_map_iff in Hin.
  destruct Hin as [x [Hx Hin]]. apply filter_In in Hin.
  apply in_map_iff. exists x. tauto.
Qed.
End Rows.

End TableFacts.

(** ** Facts about the provider calls *)

Module CallFacts.
Import Gorm Json Http Props TableFacts.

Lemma tick_spec db :
  tick db = (hd None (faults db), mkDB (store db) (tl (faults db))).
Proof. destruct db as [s [|f fs]]; reflexivity. Qed.

Lemma calm_1 fs : calm 1 fs = true -> hd None fs = None.
Proof.
  destruct fs as [|[c|] fs]; simpl; intros H; try reflexivity; discriminate.
Qed.

Lemma calm_2 fs :
  calm 2 fs = true -> hd None fs = None /\ hd None (tl fs) = None.
Proof.
  destruct fs as [|[c|] [|[c'|] fs]]; simpl; intros H;
    try discriminate; auto.
Qed.

Lemma row_model_set m x : row_model (set_row_model m x) = m.
Proof. reflexivity. Qed.

Lemma tag_model_set m x : Tag_Model (set_tag_model m x) = m.
Proof. reflexivity. Qed.


Lemma First_FAQ_found id db r :
  first_live row_model id (faqs (store db)) = Some r ->
  hd None (faults db) = None ->
  First_FAQ id db = (inr (faq_of r []), mkDB (store db) (tl (faults db))).
Proof.
  intros Hf Hc. unfold First_FAQ. rewrite tick_spec, Hc. simpl.
  rewrite Hf. reflexivity.
Qed.



Lemma First_Tag_found id db t :
  first_live Tag_Model id (tags (store db)) = Some t ->
  hd None (faults db) = None ->
  First_Tag id db = (inr t, mkDB (store db) (tl (faults db))).
Proof.
  intros Hf Hc. unfold First_Tag. rewrite tick_spec, Hc. simpl.
  rewrite Hf. reflexivity.
Qed.


Lemma deleteTagHandler_done now id t db :
  id <> 0 ->
  first_live Tag_Model id (tags (store db)) = Some t ->
  calm 2 (faults db) = true ->
  Main.deleteTagHandler now id db
  = (JSON StatusOK (oH (H_data "Tag deleted successfully")),
     mkDB (mkStore (faqs (store db))
                   (soft_delete Tag_Model set_tag_model now id (tags (store db)))
                   (faq_tags (store db)))
          (tl (tl (faults db)))).
Proof.
  intros Hid Hf Hc. apply calm_2 in Hc. destruct Hc as [H1 H2].
  unfold Main.deleteTagHandler. rewrite (First_Tag_found id db t Hf H1).
  unfold Delete_Tag. rewrite tick_spec. simpl. rewrite H2.
  destruct (first_live_found Tag_Model id _ t Hf) as [_ [Hr _]].
  rewrite Hr. destruct (Z.eqb_spec id 0); [contradiction|]. reflexivity.
Qed.


(** The FAQs that a list response carries are the live rows. *)
Lemma preloadFAQsHandler_listed db l f :
  fst (Main.preloadFAQsHandler db) = JSON StatusOK (oFAQs l) ->
  In f l ->
  exists r, In r (all_live row_model (faqs (store db)))
            /\ f = faq_of r (preload_tags (store db) (ID (row_model r))).
Proof.
  unfold Main.preloadFAQsHandler, Preload_Find_FAQ. rewrite tick_spec.
  destruct (hd None (faults db)); simpl; intros Heq Hin; [discriminate|].
  injection Heq as <-. apply in_map_iff in Hin.
  destruct Hin as [r [Hr Hin]]. exists r. auto.
Qed.

Lemma readFAQHandler_read id db f :
  fst (Main.readFAQHandler id db) = JSON StatusOK (oFAQ f) ->
  exists r, first_live row_model id (faqs (store db)) = Some r
            /\ f = faq_of r (preload_tags (store db) (ID (row_model r))).
Proof.
  unfold Main.readFAQHandler, Preload_First_FAQ. rewrite tick_spec.
  destruct (hd None (faults db)); simpl; [discriminate|].
  destruct (first_live row_model id (faqs (store db))) as [r|]; simpl;
    intros Heq; [|discriminate].
  injection Heq as <-. eauto.
Qed.


(** The eager load never yields a tag all of whose rows are soft-deleted. *)
Lemma preload_tags_skips_gone s t f x :
  tag_gone t s -> In x (preload_tags s f) -> ID (Tag_Model x) <> t.
Proof.
  unfold preload_tags, all_live. intros Hg Hin Hid.
  apply filter_In in Hin. destruct Hin as [Hin _].
  apply filter_In in Hin. destruct Hin as [Hin Hl].
  rewrite (Hg x Hin Hid) in Hl. discriminate.
Qed.

(** *** Binding *)

Lemma bind_model_ok k field p m m' :
  bind_model k field p m = inr m' ->
  ID m' = overlay (f_ID p) (ID m)
  /\ CreatedAt m' = overlay (f_CreatedAt p) (CreatedAt m)
  /\ DeletedAt m' = overlay_deleted (f_DeletedAt p) (DeletedAt m).
Proof.
  unfold bind_model. intros H.
  destruct (f_ID p) as [n|]; [destruct (in_range k n); [|discriminate]|];
    injection H as <-; simpl; auto.
Qed.

Lemma bind_faq_ok k p f f1 :
  bind_faq k p f = inr f1 ->
  Question f1 = overlay (q_question p) (Question f)
  /\ Answer f1 = overlay (q_answer p) (Answer f)
  /\ ID (FAQ_Model f1) = overlay (f_ID (q_Model p)) (ID (FAQ_Model f))
  /\ DeletedAt (FAQ_Model f1)
     = overlay_deleted (f_DeletedAt (q_Model p)) (DeletedAt (FAQ_Model f)).
Proof.
  unfold bind_faq. intros H.
  destruct (bind_model k "FAQ.ID" (q_Model p) (FAQ_Model f)) as [e|m] eqn:Hm;
    [discriminate|].
  destruct (bind_model_ok _ _ _ _ _ Hm) as [Hid [_ Hdel]].
  destruct (q_Tags p) as [ps|];
    [destruct (bind_tags k ps); [discriminate|]|];
    injection H as <-; simpl; auto.
Qed.




(** *** Saving *)

Lemma save_associations_spec now f rows s :
  let (f', s') := save_associations now f rows s in
  FAQ_Model f' = FAQ_Model f /\ Question f' = Question f
  /\ Answer f' = Answer f
  /\ faqs s' = rows
  /\ tags s' = snd (save_tags now (Tags f) (tags s)).
Proof.
  unfold save_associations.
  destruct (save_tags now (Tags f) (tags s)) as [back tbl]. simpl. auto.
Qed.

Lemma stamp_id now m : ID (stamp now m) = ID m.
Proof. reflexivity. Qed.

Lemma stamp_deleted now m : DeletedAt (stamp now m) = DeletedAt m.
Proof. reflexivity. Qed.

(** An insert without key always goes through, under the next key. *)
Lemma insert_faq_keyless now f s :
  ID (FAQ_Model f) = 0 ->
  exists f' s',
    insert_faq now f s = inr (f', s')
    /\ ID (FAQ_Model f') = next_id row_model (faqs s)
    /\ DeletedAt (FAQ_Model f') = DeletedAt (FAQ_Model f)
    /\ Question f' = Question f /\ Answer f' = Answer f
    /\ faqs s' = insert_row row_model (row_of f') (faqs s)
    /\ tags s' = snd (save_tags now (Tags f) (tags s)).
Proof.
  intros H0. unfold insert_faq. rewrite stamp_id, H0. simpl.
  match goal with |- context [save_associations now ?g ?rows s] =>
    pose proof (save_associations_spec now g rows s) as Hs;
    destruct (save_associations now g rows s) as [f' s'] end.
  destruct Hs as [Hm [Hq [Ha [Hrows Htags]]]].
  exists f', s'. split; [reflexivity|].
  rewrite Hm, Hq, Ha, Hrows, Htags. simpl.
  repeat split. unfold row_of. rewrite Hm, Hq, Ha. reflexivity.
Qed.

Lemma insert_faq_keyed now f s :
  ID (FAQ_Model f) <> 0 ->
  has_id row_model (ID (FAQ_Model f)) (faqs s) = false ->
  exists f' s',
    insert_faq now f s = inr (f', s')
    /\ ID (FAQ_Model f') = ID (FAQ_Model f)
    /\ DeletedAt (FAQ_Model f') = DeletedAt (FAQ_Model f)
    /\ Question f' = Question f /\ Answer f' = Answer f
    /\ faqs s' = insert_row row_model (row_of f') (faqs s)
    /\ tags s' = snd (save_tags now (Tags f) (tags s)).
Proof.
  intros H0 Hfresh. unfold insert_faq. rewrite stamp_id.
  destruct (Z.eqb_spec (ID (FAQ_Model f)) 0); [contradiction|].
  rewrite Hfresh.
  match goal with |- context [save_associations now ?g ?rows s] =>
    pose proof (save_associations_spec now g rows s) as Hs;
    destruct (save_associations now g rows s) as [f' s'] end.
  destruct Hs as [Hm [Hq [Ha [Hrows Htags]]]].
  exists f', s'. split; [reflexivity|].
  rewrite Hm, Hq, Ha, Hrows, Htags. simpl.
  repeat split. unfold row_of. rewrite Hm, Hq, Ha. reflexivity.
Qed.

(** What [Save_FAQ] hands back, whichever way it goes. *)
Lemma Save_FAQ_returns now f db :
  exists f2 e db2,
    Save_FAQ now f db = (f2, e, db2)
    /\ Question f2 = Question f /\ Answer f2 = Answer f
    /\ (ID (FAQ_Model f) <> 0 -> ID (FAQ_Model f2) = ID (FAQ_Model f)).
Proof.
  unfold Save_FAQ. rewrite tick_spec.
  destruct (hd None (faults db)) as [c|]; simpl.
  { repeat eexists. }
  destruct (Z.eqb_spec (ID (FAQ_Model f)) 0) as [H0|H0].
  - destruct (insert_faq_keyless now f (store db) H0)
      as [f' [s' [-> [_ [_ [Hq [Ha _]]]]]]].
    exists f', None, (mkDB s' (tl (faults db))). repeat split; auto.
    intros Hn. contradiction.
  - destruct (first_live row_model (ID (FAQ_Model f)) (faqs (store db))).
    + match goal with |- context [save_associations now ?g ?rows ?s] =>
        pose proof (save_associations_spec now g rows s) as Hs;
        destruct (save_associations now g rows s) as [f' s'] end.
      destruct Hs as [Hm [Hq [Ha _]]].
      exists f', None, (mkDB s' (tl (faults db))).
      rewrite Hm, Hq, Ha. simpl. repeat split.
    + match goal with |- context [save_associations now ?g ?rows ?s] =>
        pose proof (save_associations_spec now g rows s) as Hs;
        destruct (save_associations now g rows s) as [f' s'] end.
      destruct Hs as [Hm [Hq [Ha _]]].
      exists f', None, (mkDB s' (tl (faults db))).
      rewrite Hm, Hq, Ha. simpl. repeat split.
Qed.

(** Saving a record whose key is that of a live row rewrites that row. *)
Lemma Save_FAQ_updates now f db r :
  ID (FAQ_Model f) <> 0 ->
  first_live row_model (ID (FAQ_Model f)) (faqs (store db)) = Some r ->
  hd None (faults db) = None ->
  exists f2 db2,
    Save_FAQ now f db = (f2, None, db2)
    /\ faqs (store db2)
       = update_live row_model (ID (FAQ_Model f))
           (row_of (set_faq_model (touch now (FAQ_Model f)) f))
           (faqs (store db)).
Proof.
  intros H0 Hf Hc. unfold Save_FAQ. rewrite tick_spec, Hc. simpl.
  destruct (Z.eqb_spec (ID (FAQ_Model f)) 0); [contradiction|].
  rewrite Hf.
  match goal with |- context [save_associations now ?g ?rows ?s] =>
    pose proof (save_associations_spec now g rows s) as Hs;
    destruct (save_associations now g rows s) as [f' s'] end.
  destruct Hs as [_ [_ [_ [Hrows _]]]].
  exists f', (mkDB s' (tl (faults db))). split; [reflexivity|exact Hrows].
Qed.


(** *** Tag rows under the saving of an FAQ *)

Lemma save_tags_keeps now ts tbl x :
  In x tbl -> In x (snd (save_tags now ts tbl)).
Proof.
  revert tbl. induction ts as [|t rest IH]; intros tbl Hin; simpl; [exact Hin|].
  destruct (ID (Tag_Model t) =? 0).
  - match goal with |- context [save_tags now rest ?tb] =>
      specialize (IH tb); destruct (save_tags now rest tb) as [back tbl'] end.
    simpl in *. apply IH. apply in_insert_row. auto.
  - destruct (has_id Tag_Model (ID (Tag_Model t)) tbl).
    + specialize (IH tbl Hin).
      destruct (save_tags now rest tbl) as [back tbl']. exact IH.
    + match goal with |- context [save_tags now rest ?tb] =>
        specialize (IH tb); destruct (save_tags now rest tb) as [back tbl'] end.
      simpl in *. apply IH. apply in_insert_row. auto.
Qed.

Lemma save_tags_known now ts tbl :
  tags_known tbl ts = true -> snd (save_tags now ts tbl) = tbl.
Proof.
  induction ts as [|t rest IH]; simpl; intros Hk; [reflexivity|].
  apply andb_true_iff in Hk. destruct Hk as [Ht Hrest].
  apply andb_true_iff in Ht. destruct Ht as [Hnz Hhas].
  apply negb_true_iff in Hnz. rewrite Hnz, Hhas.
  specialize (IH Hrest). destruct (save_tags now rest tbl) as [back tbl'].
  exact IH.
Qed.

Lemma bind_tags_known k ps ts tbl :
  bind_tags k ps = inr ts -> refs_known tbl ps = true ->
  tags_known tbl ts = true.
Proof.
  revert ts. induction ps as [|p rest IH]; simpl; intros ts Hb Hk.
  - injection Hb as <-. reflexivity.
  - apply andb_true_iff in Hk. destruct Hk as [Hp Hrest].
    unfold bind_tag in Hb.
    destruct (bind_model k "Tag.ID" (t_Model p) (Tag_Model zero_tag))
      as [e|m] eqn:Hm; [discriminate|].
    destruct (bind_tags k rest) as [e|ts'] eqn:Hts; [discriminate|].
    injection Hb as <-. simpl.
    destruct (bind_model_ok _ _ _ _ _ Hm) as [Hid _].
    destruct (f_ID (t_Model p)) as [n|]; [|discriminate].
    simpl in Hid. rewrite Hid, Hp. simpl. apply IH; auto.
Qed.

Lemma bind_faq_tags_known k p f f1 tbl :
  bind_faq k p f = inr f1 -> Tags f = [] ->
  body_refs_known tbl (Decoded p) = true ->
  tags_known tbl (Tags f1) = true.
Proof.
  unfold bind_faq, body_refs_known. intros Hb Hnil Hk.
  destruct (bind_model k "FAQ.ID" (q_Model p) (FAQ_Model f)); [discriminate|].
  destruct (q_Tags p) as [ps|].
  - destruct (bind_tags k ps) as [e|ts] eqn:Hts; [discriminate|].
    injection Hb as <-. simpl. exact (bind_tags_known _ _ _ _ Hts Hk).
  - injection Hb as <-. simpl. rewrite Hnil. reflexivity.
Qed.






(** *** Calls that fail *)



(** *** Tag rows the saving of an FAQ inserts *)




End CallFacts.

(** ** Keys are never zero *)

Module KeyFacts.
Import Gorm Json Http Props TableFacts CallFacts.

Lemma save_tags_nonzero now ts tbl :
  tag_keys_nonzero tbl -> tag_keys_nonzero (snd (save_tags now ts tbl)).
Proof.
  revert tbl. induction ts as [|t rest IH]; intros tbl Hnz; simpl; [exact Hnz|].
  destruct (Z.eqb_spec (ID (Tag_Model t)) 0) as [H0|H0].
  - match goal with |- context [save_tags now rest ?tb] =>
      specialize (IH tb); destruct (save_tags now rest tb) as [back tbl'] end.
    simpl in *. apply IH. intros x Hin. apply in_insert_row in Hin.
    destruct Hin as [->|Hin]; [|exact (Hnz x Hin)]. simpl.
    pose proof (next_id_positive Tag_Model tbl). lia.
  - destruct (has_id Tag_Model (ID (Tag_Model t)) tbl).
    + specialize (IH tbl Hnz).
      destruct (save_tags now rest tbl) as [back tbl']. exact IH.
    + match goal with |- context [save_tags now rest ?tb] =>
        specialize (IH tb); destruct (save_tags now rest tb) as [back tbl'] end.
      simpl in *. apply IH. intros x Hin. apply in_insert_row in Hin.
      destruct Hin as [->|Hin]; [exact H0|exact (Hnz x Hin)].
Qed.

Lemma save_associations_nonzero now f rows s :
  row_keys_nonzero rows -> tag_keys_nonzero (tags s) ->
  keys_nonzero (snd (save_associations now f rows s)).
Proof.
  intros Hr Ht. pose proof (save_associations_spec now f rows s) as Hs.
  destruct (save_associations now f rows s) as [f' s'].
  destruct Hs as [_ [_ [_ [Hrows Htags]]]]. simpl. split.
  - rewrite Hrows. exact Hr.
  - rewrite Htags. apply save_tags_nonzero. exact Ht.
Qed.

Lemma insert_faq_nonzero now f s f' s' :
  keys_nonzero s -> insert_faq now f s = inr (f', s') -> keys_nonzero s'.
Proof.
  intros [Hr Ht]. unfold insert_faq. cbv zeta. rewrite !stamp_id.
  destruct (Z.eqb_spec (ID (FAQ_Model f)) 0) as [H0|H0].
  - intros Heq. injection Heq as Heq.
    match type of Heq with save_associations now ?g ?rows s = _ =>
      pose proof (save_associations_nonzero now g rows s) as Hs end.
    rewrite Heq in Hs. apply Hs; [|exact Ht].
    intros x Hin. apply in_insert_row in Hin.
    destruct Hin as [->|Hin]; [|exact (Hr x Hin)]. simpl.
    pose proof (next_id_positive row_model (faqs s)). lia.
  - destruct (has_id row_model (ID (FAQ_Model f)) (faqs s)); [discriminate|].
    intros Heq. injection Heq as Heq.
    match type of Heq with save_associations now ?g ?rows s = _ =>
      pose proof (save_associations_nonzero now g rows s) as Hs end.
    rewrite Heq in Hs. apply Hs; [|exact Ht].
    intros x Hin. apply in_insert_row in Hin.
    destruct Hin as [->|Hin]; [exact H0|exact (Hr x Hin)].
Qed.

Lemma insert_tag_nonzero now t s t' s' :
  keys_nonzero s -> insert_tag now t s = inr (t', s') -> keys_nonzero s'.
Proof.
  intros [Hr Ht]. unfold insert_tag. cbv zeta. rewrite !stamp_id.
  destruct (Z.eqb_spec (ID (Tag_Model t)) 0) as [H0|H0].
  - intros Heq. injection Heq as _ <-. split; [exact Hr|]. simpl.
    intros x Hin. apply in_insert_row in Hin.
    destruct Hin as [->|Hin]; [|exact (Ht x Hin)]. simpl.
    pose proof (next_id_positive Tag_Model (tags s)). lia.
  - destruct (has_id Tag_Model (ID (Tag_Model t)) (tags s)); [discriminate|].
    intros Heq. injection Heq as _ <-. split; [exact Hr|]. simpl.
    intros x Hin. apply in_insert_row in Hin.
    destruct Hin as [->|Hin]; [exact H0|exact (Ht x Hin)].
Qed.

Lemma Create_FAQ_nonzero now f db :
  keys_nonzero (store db) -> keys_nonzero (store (snd (Create_FAQ now f db))).
Proof.
  intros Hk. unfold Create_FAQ. rewrite tick_spec.
  destruct (hd None (faults db)); simpl; [exact Hk|].
  destruct (insert_faq now f (store db)) as [e|[f' s']] eqn:Hi; simpl;
    [exact Hk|]. exact (insert_faq_nonzero _ _ _ _ _ Hk Hi).
Qed.

Lemma Save_FAQ_nonzero now f db :
  keys_nonzero (store db) -> keys_nonzero (store (snd (Save_FAQ now f db))).
Proof.
  intros Hk. unfold Save_FAQ. rewrite tick_spec.
  destruct (hd None (faults db)); simpl; [exact Hk|].
  destruct (Z.eqb_spec (ID (FAQ_Model f)) 0) as [H0|H0].
  - destruct (insert_faq now f (store db)) as [e|[f' s']] eqn:Hi; simpl;
      [exact Hk|]. exact (insert_faq_nonzero _ _ _ _ _ Hk Hi).
  - destruct Hk as [Hr Ht].
    destruct (first_live row_model (ID (FAQ_Model f)) (faqs (store db))).
    + match goal with |- context [save_associations now ?g ?rows ?s] =>
        pose proof (save_associations_nonzero now g rows s) as Hs;
        destruct (save_associations now g rows s) as [f' s'] end.
      simpl in *. apply Hs; [|exact Ht].
      intros x Hin. apply in_update_live in Hin.
      destruct Hin as [->|Hin]; [exact H0|exact (Hr x Hin)].
    + match goal with |- context [save_associations now ?g ?rows ?s] =>
        pose proof (save_associations_nonzero now g rows s) as Hs;
        destruct (save_associations now g rows s) as [f' s'] end.
      simpl in *. apply Hs; [|exact Ht].
      intros x Hin. apply in_upsert in Hin.
      destruct Hin as [->|Hin]; [exact H0|exact (Hr x Hin)].
Qed.

Lemma Delete_FAQ_nonzero now f db :
  keys_nonzero (store db) -> keys_nonzero (store (snd (Delete_FAQ now f db))).
Proof.
  intros Hk. unfold Delete_FAQ. rewrite tick_spec.
  destruct (hd None (faults db)); simpl; [exact Hk|].
  destruct (ID (FAQ_Model f) =? 0); simpl; [exact Hk|].
  destruct Hk as [Hr Ht]. split; [|exact Ht]. simpl. intros x Hin.
  destruct (in_soft_delete row_model set_row_model row_model_set _ _ _ _ Hin)
    as [y [Hy <-]]. exact (Hr y Hy).
Qed.

Lemma Create_Tag_nonzero now t db :
  keys_nonzero (store db) -> keys_nonzero (store (snd (Create_Tag now t db))).
Proof.
  intros Hk. unfold Create_Tag. rewrite tick_spec.
  destruct (hd None (faults db)); simpl; [exact Hk|].
  destruct (insert_tag now t (store db)) as [e|[t' s']] eqn:Hi; simpl;
    [exact Hk|]. exact (insert_tag_nonzero _ _ _ _ _ Hk Hi).
Qed.

Lemma Save_Tag_nonzero now t db :
  keys_nonzero (store db) -> keys_nonzero (store (snd (Save_Tag now t db))).
Proof.
  intros Hk. unfold Save_Tag. rewrite tick_spec.
  destruct (hd None (faults db)); simpl; [exact Hk|].
  destruct (Z.eqb_spec (ID (Tag_Model t)) 0) as [H0|H0].
  - destruct (insert_tag now t (store db)) as [e|[t' s']] eqn:Hi; simpl;
      [exact Hk|]. exact (insert_tag_nonzero _ _ _ _ _ Hk Hi).
  - destruct Hk as [Hr Ht].
    destruct (first_live Tag_Model (ID (Tag_Model t)) (tags (store db)));
      simpl; (split; [exact Hr|]); simpl; intros x Hin.
    + apply in_update_live in Hin.
      destruct Hin as [->|Hin]; [exact H0|exact (Ht x Hin)].
    + apply in_upsert in Hin.
      destruct Hin as [->|Hin]; [exact H0|exact (Ht x Hin)].
Qed.

Lemma Delete_Tag_nonzero now t db :
  keys_nonzero (store db) -> keys_nonzero (store (snd (Delete_Tag now t db))).
Proof.
  intros Hk. unfold Delete_Tag. rewrite tick_spec.
  destruct (hd None (faults db)); simpl; [exact Hk|].
  destruct (ID (Tag_Model t) =? 0); simpl; [exact Hk|].
  destruct Hk as [Hr Ht]. split; [exact Hr|]. simpl. intros x Hin.
  destruct (in_soft_delete Tag_Model set_tag_model tag_model_set _ _ _ _ Hin)
    as [y [Hy <-]]. exact (Ht y Hy).
Qed.

Lemma keys_nonzero_Empty : keys_nonzero Empty.
Proof. split; intros x []. Qed.

(** Every request to [main.go] that can write keeps the keys nonzero; the
    reading handlers leave the store alone. *)
Lemma main_handlers_keep_keys_nonzero now id fbody tbody db :
  keys_nonzero (store db) ->
  keys_nonzero (store (snd (Main.createFAQHandler now fbody db)))
  /\ keys_nonzero (store (snd (Main.updateFAQHandler now id fbody db)))
  /\ keys_nonzero (store (snd (Main.deleteFAQHandler now id db)))
  /\ keys_nonzero (store (snd (Main.createTagHandler now tbody db)))
  /\ keys_nonzero (store (snd (Main.updateTagHandler now id tbody db)))
  /\ keys_nonzero (store (snd (Main.deleteTagHandler now id db)))
  /\ store (snd (Main.readFAQHandler id db)) = store db
  /\ store (snd (Main.preloadFAQsHandler db)) = store db
  /\ store (snd (Main.getTagsHandler db)) = store db.
Proof.
  intros Hk.
  split; [|split; [|split; [|split; [|split; [|split; [|split; [|split]]]]]]].
  - unfold Main.createFAQHandler.
    destruct (ShouldBindJSON _ fbody zero_faq) as [e|f]; [exact Hk|].
    pose proof (Create_FAQ_nonzero now f db Hk) as Hc.
    destruct (Create_FAQ now f db) as [[f' [e|]] db']; exact Hc.
  - unfold Main.updateFAQHandler, First_FAQ. rewrite tick_spec.
    destruct (hd None (faults db)); simpl; [exact Hk|].
    destruct (first_live row_model id (faqs (store db))) as [r|]; [|exact Hk].
    destruct (ShouldBindJSON _ fbody (faq_of r [])) as [e|f]; [exact Hk|].
    pose proof (Save_FAQ_nonzero now f (mkDB (store db) (tl (faults db))) Hk)
      as Hs.
    destruct (Save_FAQ now f _) as [[f' e] db']. exact Hs.
  - unfold Main.deleteFAQHandler, First_FAQ. rewrite tick_spec.
    destruct (hd None (faults db)); simpl; [exact Hk|].
    destruct (first_live row_model id (faqs (store db))) as [r|]; [|exact Hk].
    pose proof (Delete_FAQ_nonzero now (faq_of r [])
                  (mkDB (store db) (tl (faults db))) Hk) as Hd.
    destruct (Delete_FAQ now _ _) as [e db']. exact Hd.
  - unfold Main.createTagHandler.
    destruct (ShouldBindJSON _ tbody zero_tag) as [e|t]; [exact Hk|].
    pose proof (Create_Tag_nonzero now t db Hk) as Hc.
    destruct (Create_Tag now t db) as [[t' [e|]] db']; exact Hc.
  - unfold Main.updateTagHandler, First_Tag. rewrite tick_spec.
    destruct (hd None (faults db)); simpl; [exact Hk|].
    destruct (first_live Tag_Model id (tags (store db))) as [t|]; [|exact Hk].
    destruct (ShouldBindJSON _ tbody t) as [e|t1]; [exact Hk|].
    pose proof (Save_Tag_nonzero now t1 (mkDB (store db) (tl (faults db))) Hk)
      as Hs.
    destruct (Save_Tag now t1 _) as [[t' e] db']. exact Hs.
  - unfold Main.deleteTagHandler, First_Tag. rewrite tick_spec.
    destruct (hd None (faults db)); simpl; [exact Hk|].
    destruct (first_live Tag_Model id (tags (store db))) as [t|]; [|exact Hk].
    pose proof (Delete_Tag_nonzero now t
                  (mkDB (store db) (tl (faults db))) Hk) as Hd.
    destruct (Delete_Tag now _ _) as [e db']. exact Hd.
  - unfold Main.readFAQHandler, Preload_First_FAQ. rewrite tick_spec.
    destruct (hd None (faults db)); simpl; [reflexivity|].
    destruct (first_live row_model id (faqs (store db))); reflexivity.
  - unfold Main.preloadFAQsHandler, Preload_Find_FAQ. rewrite tick_spec.
    destruct (hd None (faults db)); reflexivity.
  - unfold Main.getTagsHandler, Find_Tag. rewrite tick_spec.
    destruct (hd None (faults db)); reflexivity.
Qed.

End KeyFacts.

(** ** The claims *)

Module Claims.
Import Gorm Json Http Props TableFacts CallFacts.





(** C10.  Deleting a tag leaves the join table as it was, and in the store
    it leaves the tag appears in the tags of no FAQ returned by read-by-id
    or by the list with tags: the eager load skips soft-deleted tags. *)
Theorem deleted_tag_leaves_eager_load
    (now : Time) (tid : Z) (t : Tag) (db : DB) :
  tid <> 0 ->
  first_live Tag_Model tid (tags (store db)) = Some t ->
  calm 2 (faults db) = true ->
  let after := store (snd (Main.deleteTagHandler now tid db)) in
  faq_tags after = faq_tags (store db)
  /\ (forall fs id f x,
        fst (Main.readFAQHandler id (mkDB after fs)) = JSON StatusOK (oFAQ f) ->
        In x (Tags f) -> ID (Tag_Model x) <> tid)
  /\ (forall fs l f x,
        fst (Main.preloadFAQsHandler (mkDB after fs)) = JSON StatusOK (oFAQs l) ->
        In f l -> In x (Tags f) -> ID (Tag_Model x) <> tid).
Proof.
  intros Htid HT Hc after. subst after.
  rewrite (deleteTagHandler_done now tid t db Htid HT Hc). simpl.
  set (s1 := mkStore _ _ _).
  assert (tag_gone tid s1) as Hgone.
  { intros x Hin Hid. simpl in Hin.
    exact (soft_delete_gone Tag_Model set_tag_model tag_model_set
             now tid _ x Hin Hid). }
  split; [reflexivity|split].
  - intros fs id f x Hr Hin.
    destruct (readFAQHandler_read id _ f Hr) as [r [_ ->]].
    simpl in Hin. exact (preload_tags_skips_gone s1 tid _ x Hgone Hin).
  - intros fs l f x Hl Hf Hin.
    destruct (preloadFAQsHandler_listed _ l f Hl Hf) as [r [_ ->]].
    simpl in Hin. exact (preload_tags_skips_gone s1 tid _ x Hgone Hin).
Qed.

Lemma deleted_tag_leaves_eager_load_witness :
  faq_tags (store (snd (Main.deleteTagHandler 50 1 (mkDB sample [])))) = [(1, 1)]
  /\ fst (Main.readFAQHandler
            1 (mkDB (store (snd (Main.deleteTagHandler 50 1 (mkDB sample [])))) []))
     = JSON StatusOK (oFAQ (mkFAQ (mkModel 1 10 10 None) "Q1" "A1" [])).
Proof.
  assert (1 <> 0) as H10 by lia.
  destruct (deleted_tag_leaves_eager_load 50 1
              (mkTag (mkModel 1 10 10 None) "billing" "finance")
              (mkDB sample []) H10 eq_refl eq_refl) as [Hj _].
  split; [exact Hj | reflexivity].
Defined.

Ltac open_update Hf Hc1 Hb :=
  rewrite (First_FAQ_found _ _ _ Hf Hc1);
  unfold ShouldBindJSON; rewrite Hb.

(** C1.  On an existing record and a well-formed body, update-by-id, in
    either variant, binds the body onto the loaded record before saving: a
    field the body omits keeps its stored value, a field it gives, were it
    the empty string, overwrites it; the response is the merged record with
    status OK. *)
Theorem update_binds_onto_loaded_record :
  merges_onto_loaded uint_key Main.updateFAQHandler
  /\ merges_onto_loaded int_key Earlier.UpdateFAQ.
Proof.
  split.
  - intros now id p r f1 db Hf Hc Hb. pose proof (calm_1 _ Hc) as Hc1.
    unfold Main.updateFAQHandler. open_update Hf Hc1 Hb.
    destruct (Save_FAQ_returns now f1 (mkDB (store db) (tl (faults db))))
      as [f2 [e [db2 [Heq [Hq [Ha _]]]]]].
    rewrite Heq. exists f2, db2.
    destruct (bind_faq_ok _ _ _ _ Hb) as [Hq1 [Ha1 [Hid1 Hdel1]]]. simpl in *.
    split; [reflexivity|]. split; [congruence|]. split; [congruence|].
    intros Hid Hnoid Hnodel Hc2. apply calm_2 in Hc2. destruct Hc2 as [_ Hc2].
    destruct (first_live_found row_model id _ r Hf) as [_ [Hrid Hrl]].
    rewrite Hnoid in Hid1. rewrite Hnodel in Hdel1. simpl in Hid1, Hdel1.
    assert (ID (FAQ_Model f1) = id) as Hk by congruence.
    destruct (Save_FAQ_updates now f1 (mkDB (store db) (tl (faults db))) r)
      as [f2' [db2' [Heq' Hrows]]]; simpl; try (rewrite Hk); auto.
    rewrite Heq in Heq'. injection Heq' as _ _ <-.
    eexists. rewrite Hrows. simpl. rewrite Hk. split.
    + apply (first_live_updated row_model id _ (faqs (store db)) r Hf).
      * simpl. exact Hk.
      * unfold live in *. simpl. rewrite Hdel1. exact Hrl.
    + simpl. split; congruence.
  - intros now id p r f1 db Hf Hc Hb. pose proof (calm_1 _ Hc) as Hc1.
    unfold Earlier.UpdateFAQ. open_update Hf Hc1 Hb.
    destruct (Save_FAQ_returns now f1 (mkDB (store db) (tl (faults db))))
      as [f2 [e [db2 [Heq [Hq [Ha _]]]]]].
    rewrite Heq. exists f2, db2.
    destruct (bind_faq_ok _ _ _ _ Hb) as [Hq1 [Ha1 [Hid1 Hdel1]]]. simpl in *.
    split; [reflexivity|]. split; [congruence|]. split; [congruence|].
    intros Hid Hnoid Hnodel Hc2. apply calm_2 in Hc2. destruct Hc2 as [_ Hc2].
    destruct (first_live_found row_model id _ r Hf) as [_ [Hrid Hrl]].
    rewrite Hnoid in Hid1. rewrite Hnodel in Hdel1. simpl in Hid1, Hdel1.
    assert (ID (FAQ_Model f1) = id) as Hk by congruence.
    destruct (Save_FAQ_updates now f1 (mkDB (store db) (tl (faults db))) r)
      as [f2' [db2' [Heq' Hrows]]]; simpl; try (rewrite Hk); auto.
    rewrite Heq in Heq'. injection Heq' as _ _ <-.
    eexists. rewrite Hrows. simpl. rewrite Hk. split.
    + apply (first_live_updated row_model id _ (faqs (store db)) r Hf).
      * simpl. exact Hk.
      * unfold live in *. simpl. rewrite Hdel1. exact Hrl.
    + simpl. split; congruence.
Qed.

Lemma update_binds_onto_loaded_record_witness :
  exists f2 db2,
    Main.updateFAQHandler 50 1 (Decoded (question_only "Q2")) (mkDB sample [])
    = (JSON StatusOK (oFAQ f2), db2)
    /\ Question f2 = "Q2" /\ Answer f2 = "A1".
Proof.
  destruct (proj1 update_binds_onto_loaded_record
              50 1 (question_only "Q2")
              (mkRow (mkModel 1 10 10 None) "Q1" "A1")
              (mkFAQ (mkModel 1 10 10 None) "Q2" "A1" [])
              (mkDB sample []) eq_refl eq_refl eq_refl)
    as [f2 [db2 [Heq [Hq [Ha _]]]]].
  exists f2, db2. auto.
Defined.

(** Setting the answer to the empty string overwrites the stored one. *)
Example update_with_empty_answer :
  fst (Main.updateFAQHandler 50 1 (Decoded (qa "Q2" "")) (mkDB sample []))
  = JSON StatusOK (oFAQ (mkFAQ (mkModel 1 10 50 None) "Q2" "" [])).
Proof. reflexivity. Qed.




Lemma insert_faq_fresh now f s :
  ID (FAQ_Model f) = 0
  \/ has_id row_model (ID (FAQ_Model f)) (faqs s) = false ->
  exists f' s',
    insert_faq now f s = inr (f', s')
    /\ ID (FAQ_Model f') <> 0
    /\ has_id row_model (ID (FAQ_Model f')) (faqs s) = false
    /\ DeletedAt (FAQ_Model f') = DeletedAt (FAQ_Model f)
    /\ Question f' = Question f /\ Answer f' = Answer f
    /\ faqs s' = insert_row row_model (row_of f') (faqs s).
Proof.
  intros Hk. destruct (Z.eq_dec (ID (FAQ_Model f)) 0) as [H0|H0].
  - destruct (insert_faq_keyless now f s H0)
      as [f' [s' [Heq [Hid [Hd [Hq [Ha [Hrows _]]]]]]]].
    exists f', s'. rewrite Hid.
    pose proof (next_id_positive row_model (faqs s)).
    repeat split; auto; try lia. apply (next_id_fresh row_model).
  - destruct Hk as [Hk|Hk]; [contradiction|].
    destruct (insert_faq_keyed now f s H0 Hk)
      as [f' [s' [Heq [Hid [Hd [Hq [Ha [Hrows _]]]]]]]].
    exists f', s'. rewrite Hid. repeat split; auto.
Qed.

(** C6.  A create request with a well-formed body that carries no deletion
    time and no key in use, met by no failure, is answered with the created
    record: its question and answer are the body's, its key is not zero and
    is the key of no FAQ row that was in the store; read-by-id on that key
    then returns a record with the same question and answer. *)
Theorem create_then_read
    (now : Time) (p : FAQFields) (f0 : FAQ) (db : DB) :
  bind_faq uint_key p zero_faq = inr f0 ->
  f_DeletedAt (q_Model p) = None ->
  ID (FAQ_Model f0) = 0
  \/ has_id row_model (ID (FAQ_Model f0)) (faqs (store db)) = false ->
  calm 2 (faults db) = true ->
  exists f db1,
    Main.createFAQHandler now (Decoded p) db
    = (JSON StatusCreated (oFAQ f), db1)
    /\ Question f = overlay (q_question p) ""
    /\ Answer f = overlay (q_answer p) ""
    /\ ID (FAQ_Model f) <> 0
    /\ ~ In (ID (FAQ_Model f)) (faq_keys (store db))
    /\ exists g db2,
         Main.readFAQHandler (ID (FAQ_Model f)) db1
         = (JSON StatusOK (oFAQ g), db2)
         /\ ID (FAQ_Model g) = ID (FAQ_Model f)
         /\ Question g = overlay (q_question p) ""
         /\ Answer g = overlay (q_answer p) "".
Proof.
  intros Hb Hnodel Hk Hc. apply calm_2 in Hc. destruct Hc as [Hc1 Hc2].
  destruct (bind_faq_ok _ _ _ _ Hb) as [Hq0 [Ha0 [_ Hd0]]].
  rewrite Hnodel in Hd0. simpl in Hq0, Ha0, Hd0.
  unfold Main.createFAQHandler, ShouldBindJSON. rewrite Hb.
  unfold Create_FAQ. rewrite tick_spec, Hc1. simpl.
  destruct (insert_faq_fresh now f0 (store db) Hk)
    as [f [s1 [-> [Hnz [Hfresh [Hd [Hq [Ha Hrows]]]]]]]].
  exists f, (mkDB s1 (tl (faults db))).
  split; [reflexivity|]. split; [congruence|]. split; [congruence|].
  split; [exact Hnz|]. split.
  { unfold faq_keys. intros Hin. apply in_map_iff in Hin.
    destruct Hin as [x [Hx Hin]].
    exact (proj1 (has_id_false row_model _ _) Hfresh x Hin Hx). }
  unfold Main.readFAQHandler, Preload_First_FAQ. rewrite tick_spec. simpl.
  rewrite Hc2, Hrows.
  change (ID (FAQ_Model f)) with (ID (row_model (row_of f))) at 1.
  rewrite (first_live_inserted row_model (row_of f) (faqs (store db))).
  - eexists. eexists. split; [reflexivity|]. simpl.
    split; [reflexivity|]. split; congruence.
  - exact Hfresh.
  - unfold live. simpl. rewrite Hd, Hd0. reflexivity.
Qed.

Lemma create_then_read_witness :
  exists f db1,
    Main.createFAQHandler 50 (Decoded (qa "Q2" "A2")) (mkDB sample [])
    = (JSON StatusCreated (oFAQ f), db1)
    /\ ID (FAQ_Model f) <> 0
    /\ exists g db2,
         Main.readFAQHandler (ID (FAQ_Model f)) db1
         = (JSON StatusOK (oFAQ g), db2)
         /\ Question g = "Q2" /\ Answer g = "A2".
Proof.
  destruct (create_then_read 50 (qa "Q2" "A2")
              (mkFAQ (mkModel 0 0 0 None) "Q2" "A2" [])
              (mkDB sample []) eq_refl eq_refl (or_introl eq_refl) eq_refl)
    as [f [db1 [Heq [_ [_ [Hnz [_ [g [db2 [Hr [_ [Hq Ha]]]]]]]]]]]].
  exists f, db1. split; [exact Heq|]. split; [exact Hnz|].
  exists g, db2. auto.
Defined.




(** The same through update-by-id. *)
Example update_faq_can_insert_tag_row :
  tags (store (snd (Main.updateFAQHandler
                      50 1
                      (Decoded (mkFAQFields no_model None None
                                  (Some [mkTagFields no_model (Some "new") None])))
                      (mkDB sample []))))
  = [mkTag (mkModel 1 10 10 None) "billing" "finance";
     mkTag (mkModel 2 50 50 None) "new" ""].
Proof. reflexivity. Qed.

Lemma segments_nonempty s : exists h t, Gin.segments s = h :: t.
Proof.
  induction s as [|c rest IH]; simpl; [eauto|].
  destruct (Ascii.eqb c "/"); [eauto|].
  destruct IH as [h [t ->]]. eauto.
Qed.

Lemma lookup_bound {H : Type} (r : Gin.Engine H) m path :
  Gin.lookup r m path <> None
  <-> existsb (fun e => Gin.method_eqb (fst e) m
                        && Gin.segments_match (Gin.segments (snd e))
                                              (Gin.segments path))
              (Gin.Routes r) = true.
Proof.
  unfold Gin.lookup, Gin.Routes. rewrite existsb_exists. split.
  - destruct (find (Gin.route_matches m path) r) as [x|] eqn:Hf;
      [|intros Hn; contradiction Hn; reflexivity].
    intros _. apply find_some in Hf. destruct Hf as [Hin Hm].
    exists (Gin.route_method x, Gin.route_path x). split; [|exact Hm].
    apply in_map_iff. exists x. auto.
  - intros [e [Hin Hm]]. apply in_map_iff in Hin.
    destruct Hin as [x [<- Hin]].
    destruct (find (Gin.route_matches m path) r) as [y|] eqn:Hf;
      [simpl; discriminate|].
    pose proof (find_none _ _ Hf x Hin) as Hn.
    unfold Gin.route_matches in Hn. simpl in Hm. congruence.
Qed.

(** C8.  The router of [main.go] binds the nine method and path
    combinations of the specification's table, and nothing else is
    dispatched: no request for a single tag, and none for FAQs by tag. *)
Theorem router_binds_the_nine_routes :
  Gin.Routes Main.setupRouter = Spec.http_surface
  /\ List.length (Gin.Routes Main.setupRouter) = 9%nat
  /\ (forall m path,
        Gin.lookup Main.setupRouter m path <> None
        <-> Spec.on_surface m path = true)
  /\ (forall x, Gin.lookup Main.setupRouter Gin.GET
                  (String.append "/tags/" x) = None)
  /\ (forall x, Gin.lookup Main.setupRouter Gin.GET
                  (String.append "/faqs_by_tag/" x) = None).
Proof.
  split; [reflexivity|]. split; [reflexivity|]. split; [|split].
  - intros m path. rewrite lookup_bound. reflexivity.
  - intros x. destruct (segments_nonempty x) as [h [t Hx]].
    unfold Gin.lookup, Main.setupRouter, Gin.Handle, Gin.Default.
    cbn. rewrite ?Hx. reflexivity.
  - intros x. destruct (segments_nonempty x) as [h [t Hx]].
    unfold Gin.lookup, Main.setupRouter, Gin.Handle, Gin.Default.
    cbn. rewrite ?Hx. reflexivity.
Qed.

(** The earlier variant registers a tenth route, by tag name. *)
Example earlier_router_has_by_tag_route :
  Gin.Routes Earlier.main_router
  = Spec.http_surface ++ [(Gin.GET, "/faqs_by_tag/:tag")]
  /\ Gin.lookup Earlier.main_router Gin.GET "/faqs_by_tag/billing"
     = Some Earlier.h_GetFAQsByTag
  /\ Gin.lookup Earlier.main_router Gin.GET "/tags/1" = None.
Proof. repeat split. Qed.






(** What the earlier variant answers to a key out of range. *)
Example earlier_createTag_echoes_cause :
  fst (Earlier.createTag
         50 (Decoded (mkTagFields (mkModelFields (Some (2 ^ 63)) None None None)
                                  None None))
         (mkDB Empty []))
  = JSON StatusBadRequest
      (oH (H_error "json: cannot unmarshal number 9223372036854775808 into Go struct field Tag.ID of type int")).
Proof. reflexivity. Qed.

(** The error of the save step, and of the delete step, is dropped in
    [main.go]: with the provider failing at that step the handlers still
    answer OK, with the store unchanged.  The earlier variant answers the
    same failed delete with a server error. *)
Example failed_save_and_delete_answered_ok :
  let db := mkDB sample [None; Some "database is locked"] in
  Main.updateFAQHandler 50 1 (Decoded (question_only "Q2")) db
  = (JSON StatusOK (oFAQ (mkFAQ (mkModel 1 10 10 None) "Q2" "A1" [])),
     mkDB sample [])
  /\ Main.deleteFAQHandler 50 1 db
     = (JSON StatusOK (oH (H_data "FAQ deleted successfully")), mkDB sample [])
  /\ Main.updateTagHandler
       50 1 (Decoded (mkTagFields no_model (Some "invoices") None)) db
     = (JSON StatusOK (oTag (mkTag (mkModel 1 10 10 None) "invoices" "finance")),
        mkDB sample [])
  /\ Main.deleteTagHandler 50 1 db
     = (JSON StatusOK (oH (H_data "Tag deleted successfully")), mkDB sample [])
  /\ Earlier.DeleteFAQ 50 1 db
     = (JSON StatusInternalServerError (oH (H_error "Failed to delete FAQ")),
        mkDB sample []).
Proof. repeat split. Qed.




End Claims.

(** ** Further properties of the handlers *)

Module Extras.
Import Gorm Json Http Props TableFacts CallFacts.

Lemma preloadFAQsHandler_ok db l :
  fst (Main.preloadFAQsHandler db) = JSON StatusOK (oFAQs l) ->
  l = map (fun r => faq_of r (preload_tags (store db) (ID (row_model r))))
          (all_live row_model (faqs (store db))).
Proof.
  unfold Main.preloadFAQsHandler, Preload_Find_FAQ. rewrite tick_spec.
  destruct (hd None (faults db)); simpl; intros Heq; [discriminate|].
  injection Heq as <-. reflexivity.
Qed.





Lemma Delete_FAQ_frame now f db :
  let s' := store (snd (Delete_FAQ now f db)) in
  tags s' = tags (store db) /\ faq_tags s' = faq_tags (store db)
  /\ faq_keys s' = faq_keys (store db)
  /\ (forall x, In x (faqs (store db)) ->
                ID (row_model x) <> ID (FAQ_Model f)
                \/ live (row_model x) = false ->
                In x (faqs s')).
Proof.
  unfold Delete_FAQ. rewrite tick_spec.
  destruct (hd None (faults db)); simpl; [auto|].
  destruct (ID (FAQ_Model f) =? 0); simpl; [auto|].
  repeat split.
  - unfold faq_keys. simpl.
    apply (soft_delete_keys row_model set_row_model row_model_set).
  - intros x Hin Hx. apply soft_delete_frame; assumption.
Qed.

Lemma Delete_Tag_frame now t db :
  let s' := store (snd (Delete_Tag now t db)) in
  faqs s' = faqs (store db) /\ faq_tags s' = faq_tags (store db)
  /\ tag_keys s' = tag_keys (store db)
  /\ (forall x, In x (tags (store db)) ->
                ID (Tag_Model x) <> ID (Tag_Model t)
                \/ live (Tag_Model x) = false ->
                In x (tags s')).
Proof.
  unfold Delete_Tag. rewrite tick_spec.
  destruct (hd None (faults db)); simpl; [auto|].
  destruct (ID (Tag_Model t) =? 0); simpl; [auto|].
  repeat split.
  - unfold tag_keys. simpl.
    apply (soft_delete_keys Tag_Model set_tag_model tag_model_set).
  - intros x Hin Hx. apply soft_delete_frame; assumption.
Qed.














Lemma bind_tag_ok k p t t1 :
  bind_tag k p t = inr t1 ->
  TagName t1 = overlay (t_tag_name p) (TagName t)
  /\ Category t1 = overlay (t_category p) (Category t)
  /\ ID (Tag_Model t1) = overlay (f_ID (t_Model p)) (ID (Tag_Model t))
  /\ DeletedAt (Tag_Model t1)
     = overlay_deleted (f_DeletedAt (t_Model p)) (DeletedAt (Tag_Model t)).
Proof.
  unfold bind_tag. intros H.
  destruct (bind_model k "Tag.ID" (t_Model p) (Tag_Model t)) as [e|m] eqn:Hm;
    [discriminate|].
  destruct (bind_model_ok _ _ _ _ _ Hm) as [Hid [_ Hdel]].
  injection H as <-. simpl. auto.
Qed.

Lemma insert_tag_fresh now t s :
  ID (Tag_Model t) = 0
  \/ has_id Tag_Model (ID (Tag_Model t)) (tags s) = false ->
  exists t',
    insert_tag now t s
    = inr (t', mkStore (faqs s) (insert_row Tag_Model t' (tags s)) (faq_tags s))
    /\ ID (Tag_Model t') <> 0
    /\ has_id Tag_Model (ID (Tag_Model t')) (tags s) = false
    /\ DeletedAt (Tag_Model t') = DeletedAt (Tag_Model t)
    /\ TagName t' = TagName t /\ Category t' = Category t.
Proof.
  intros Hk. unfold insert_tag. cbv zeta. rewrite !stamp_id.
  destruct (Z.eqb_spec (ID (Tag_Model t)) 0) as [H0|H0].
  - eexists. split; [reflexivity|]. simpl.
    pose proof (next_id_positive Tag_Model (tags s)).
    repeat split; try lia. apply (next_id_fresh Tag_Model).
  - destruct Hk as [Hk|Hk]; [contradiction|]. rewrite Hk.
    eexists. split; [reflexivity|]. simpl. repeat split; assumption.
Qed.

(** A tag created from a well-formed body, with no deletion time and no
    key in use, is answered 201 with the body's name and category and a key
    that is not zero and was not in the table; the list of tags then holds
    it, next to every tag it held before. *)
Theorem create_tag_then_list
    (now : Time) (p : TagFields) (t0 : Tag) (db : DB) :
  bind_tag uint_key p zero_tag = inr t0 ->
  f_DeletedAt (t_Model p) = None ->
  ID (Tag_Model t0) = 0
  \/ has_id Tag_Model (ID (Tag_Model t0)) (tags (store db)) = false ->
  calm 2 (faults db) = true ->
  exists t db1,
    Main.createTagHandler now (Decoded p) db = (JSON StatusCreated (oTag t), db1)
    /\ TagName t = overlay (t_tag_name p) ""
    /\ Category t = overlay (t_category p) ""
    /\ ID (Tag_Model t) <> 0
    /\ ~ In (ID (Tag_Model t)) (tag_keys (store db))
    /\ exists l db2,
         Main.getTagsHandler db1 = (JSON StatusOK (oTags l), db2)
         /\ In t l
         /\ forall x, In x (tags (store db)) -> live (Tag_Model x) = true ->
                      In x l.
Proof.
  intros Hb Hnodel Hk Hc. apply calm_2 in Hc. destruct Hc as [Hc1 Hc2].
  destruct (bind_tag_ok _ _ _ _ Hb) as [Hn0 [Hc0 [_ Hd0]]].
  rewrite Hnodel in Hd0. simpl in Hn0, Hc0, Hd0.
  unfold Main.createTagHandler, ShouldBindJSON. rewrite Hb.
  unfold Create_Tag. rewrite tick_spec, Hc1. simpl.
  destruct (insert_tag_fresh now t0 (store db) Hk)
    as [t [-> [Hnz [Hfresh [Hd [Hn Hcat]]]]]].
  eexists. eexists. split; [reflexivity|].
  split; [congruence|]. split; [congruence|]. split; [exact Hnz|]. split.
  { unfold tag_keys. intros Hin. apply in_map_iff in Hin.
    destruct Hin as [x [Hx Hin]].
    exact (proj1 (has_id_false Tag_Model _ _) Hfresh x Hin Hx). }
  unfold Main.getTagsHandler, Find_Tag. rewrite tick_spec. simpl.
  rewrite Hc2. eexists. eexists. split; [reflexivity|]. split.
  - apply all_live_in. split; [apply in_insert_row; auto|].
    unfold live. rewrite Hd, Hd0. reflexivity.
  - intros x Hin Hl. apply all_live_in. split; [|exact Hl].
    apply in_insert_row. auto.
Qed.

Lemma create_tag_then_list_witness :
  exists t db1,
    Main.createTagHandler
      50 (Decoded (mkTagFields no_model (Some "billing") (Some "finance")))
      (mkDB Empty [])
    = (JSON StatusCreated (oTag t), db1)
    /\ TagName t = "billing" /\ ID (Tag_Model t) <> 0.
Proof.
  destruct (create_tag_then_list
              50 (mkTagFields no_model (Some "billing") (Some "finance"))
              (mkTag (mkModel 0 0 0 None) "billing" "finance")
              (mkDB Empty []) eq_refl eq_refl (or_introl eq_refl) eq_refl)
    as [t [db1 [Heq [Hn [_ [Hnz _]]]]]].
  exists t, db1. auto.
Defined.

Lemma Save_Tag_returns now t db :
  exists t2 e db2,
    Save_Tag now t db = (t2, e, db2)
    /\ TagName t2 = TagName t /\ Category t2 = Category t.
Proof.
  unfold Save_Tag. rewrite tick_spec.
  destruct (hd None (faults db)) as [c|]; simpl; [repeat eexists|].
  destruct (Z.eqb_spec (ID (Tag_Model t)) 0) as [H0|H0].
  - destruct (insert_tag_fresh now t (store db) (or_introl H0))
      as [t' [-> [_ [_ [_ [Hn Hc]]]]]].
    repeat eexists; assumption.
  - destruct (first_live Tag_Model (ID (Tag_Model t)) (tags (store db)));
      repeat eexists.
Qed.

Lemma Save_Tag_updates now t db t0 :
  ID (Tag_Model t) <> 0 ->
  first_live Tag_Model (ID (Tag_Model t)) (tags (store db)) = Some t0 ->
  hd None (faults db) = None ->
  Save_Tag now t db
  = (set_tag_model (touch now (Tag_Model t)) t, None,
     mkDB (mkStore (faqs (store db))
                   (update_live Tag_Model (ID (Tag_Model t))
                      (set_tag_model (touch now (Tag_Model t)) t)
                      (tags (store db)))
                   (faq_tags (store db)))
          (tl (faults db))).
Proof.
  intros H0 Hf Hc. unfold Save_Tag. rewrite tick_spec, Hc. simpl.
  destruct (Z.eqb_spec (ID (Tag_Model t)) 0); [contradiction|].
  rewrite Hf. reflexivity.
Qed.

(** Update of a tag binds the body onto the loaded tag: the answer is OK
    with name and category from the body where it has them and from the
    stored row where it has not, whatever the save does; and when the body
    leaves key and deletion time alone and no call fails, the stored row
    reads back as the tag returned. *)
Theorem update_tag_binds_onto_loaded
    (now : Time) (id : Z) (p : TagFields) (t t1 : Tag) (db : DB) :
  first_live Tag_Model id (tags (store db)) = Some t ->
  calm 1 (faults db) = true ->
  bind_tag uint_key p t = inr t1 ->
  exists t2 db2,
    Main.updateTagHandler now id (Decoded p) db = (JSON StatusOK (oTag t2), db2)
    /\ TagName t2 = overlay (t_tag_name p) (TagName t)
    /\ Category t2 = overlay (t_category p) (Category t)
    /\ (id <> 0 -> f_ID (t_Model p) = None ->
        f_DeletedAt (t_Model p) = None -> calm 2 (faults db) = true ->
        first_live Tag_Model id (tags (store db2)) = Some t2).
Proof.
  intros Hf Hc Hb. pose proof (calm_1 _ Hc) as Hc1.
  unfold Main.updateTagHandler.
  rewrite (First_Tag_found _ _ _ Hf Hc1). unfold ShouldBindJSON. rewrite Hb.
  destruct (Save_Tag_returns now t1 (mkDB (store db) (tl (faults db))))
    as [t2 [e [db2 [Heq [Hn Hcat]]]]].
  rewrite Heq. exists t2, db2.
  destruct (bind_tag_ok _ _ _ _ Hb) as [Hn1 [Hcat1 [Hid1 Hdel1]]].
  split; [reflexivity|]. split; [congruence|]. split; [congruence|].
  intros Hid Hnoid Hnodel Hc2. apply calm_2 in Hc2. destruct Hc2 as [_ Hc2].
  destruct (first_live_found Tag_Model id _ t Hf) as [_ [Htid Htl]].
  rewrite Hnoid in Hid1. rewrite Hnodel in Hdel1. simpl in Hid1, Hdel1.
  assert (ID (Tag_Model t1) = id) as Hk by congruence.
  rewrite (Save_Tag_updates now t1 (mkDB (store db) (tl (faults db))) t) in Heq;
    simpl; try (rewrite Hk); auto.
  injection Heq as <- _ <-. simpl. rewrite Hk.
  apply (first_live_updated Tag_Model id _ (tags (store db)) t Hf).
  - simpl. exact Hk.
  - unfold live in *. simpl. rewrite Hdel1. exact Htl.
Qed.

Lemma update_tag_binds_onto_loaded_witness :
  exists t2 db2,
    Main.updateTagHandler
      50 1 (Decoded (mkTagFields no_model (Some "invoices") None))
      (mkDB sample [])
    = (JSON StatusOK (oTag t2), db2)
    /\ TagName t2 = "invoices" /\ Category t2 = "finance".
Proof.
  destruct (update_tag_binds_onto_loaded
              50 1 (mkTagFields no_model (Some "invoices") None)
              (mkTag (mkModel 1 10 10 None) "billing" "finance")
              (mkTag (mkModel 1 10 10 None) "invoices" "finance")
              (mkDB sample []) eq_refl eq_refl eq_refl)
    as [t2 [db2 [Heq [Hn [Hc _]]]]].
  exists t2, db2. auto.
Defined.

(** An update whose body names the key of another live record overwrites
    that record with the addressed one merged with the body, and leaves the
    addressed record as it was. *)
Theorem update_with_other_key_overwrites
    (now : Time) (id n : Z) (p : FAQFields) (r rn : FAQRow) (f1 : FAQ)
    (db : DB) :
  id <> n -> n <> 0 ->
  first_live row_model id (faqs (store db)) = Some r ->
  first_live row_model n (faqs (store db)) = Some rn ->
  f_ID (q_Model p) = Some n -> f_DeletedAt (q_Model p) = None ->
  bind_faq uint_key p (faq_of r []) = inr f1 ->
  calm 2 (faults db) = true ->
  exists f2 db2 r2,
    Main.updateFAQHandler now id (Decoded p) db = (JSON StatusOK (oFAQ f2), db2)
    /\ ID (FAQ_Model f2) = n
    /\ first_live row_model n (faqs (store db2)) = Some r2
    /\ row_question r2 = overlay (q_question p) (row_question r)
    /\ row_answer r2 = overlay (q_answer p) (row_answer r)
    /\ first_live row_model id (faqs (store db2)) = Some r.
Proof.
  intros Hne Hn0 Hf Hfn Hpid Hnodel Hb Hc.
  apply calm_2 in Hc. destruct Hc as [Hc1 Hc2].
  unfold Main.updateFAQHandler.
  rewrite (First_FAQ_found _ _ _ Hf Hc1). unfold ShouldBindJSON. rewrite Hb.
  destruct (bind_faq_ok _ _ _ _ Hb) as [Hq1 [Ha1 [Hid1 Hdel1]]].
  rewrite Hpid in Hid1. rewrite Hnodel in Hdel1. simpl in Hq1, Ha1, Hid1, Hdel1.
  destruct (first_live_found row_model id _ r Hf) as [_ [_ Hrl]].
  destruct (Save_FAQ_returns now f1 (mkDB (store db) (tl (faults db))))
    as [f2 [e [db2 [Heq [_ [_ Hkeep]]]]]].
  destruct (Save_FAQ_updates now f1 (mkDB (store db) (tl (faults db))) rn)
    as [f2' [db2' [Heq' Hrows]]]; simpl; try (rewrite Hid1); auto.
  rewrite Heq in Heq'. injection Heq' as <- -> <-.
  rewrite Heq. simpl in Hrows. rewrite Hid1 in Hrows.
  eexists. eexists. eexists. split; [reflexivity|].
  split; [rewrite Hkeep; congruence|]. rewrite Hrows. split; [|split; [|split]].
  - apply (first_live_updated row_model n _ (faqs (store db)) rn Hfn).
    + simpl. exact Hid1.
    + unfold live in *. simpl. rewrite Hdel1. exact Hrl.
  - simpl. exact Hq1.
  - simpl. exact Ha1.
  - rewrite first_live_update_other; [exact Hf| simpl; exact Hid1 | exact Hne].
Qed.

Lemma update_with_other_key_overwrites_witness :
  exists f2 db2 r2,
    Main.updateFAQHandler
      50 1 (Decoded (mkFAQFields (mkModelFields (Some 2) None None None)
                                 None (Some "A9") None))
      (mkDB (mkStore [mkRow (mkModel 1 10 10 None) "Q1" "A1";
                      mkRow (mkModel 2 20 20 None) "Q2" "A2"] [] []) [])
    = (JSON StatusOK (oFAQ f2), db2)
    /\ first_live row_model 2 (faqs (store db2)) = Some r2
    /\ row_question r2 = "Q1" /\ row_answer r2 = "A9".
Proof.
  assert (1 <> 2) as H12 by lia. assert (2 <> 0) as H20 by lia.
  destruct (update_with_other_key_overwrites
              50 1 2
              (mkFAQFields (mkModelFields (Some 2) None None None)
                           None (Some "A9") None)
              (mkRow (mkModel 1 10 10 None) "Q1" "A1")
              (mkRow (mkModel 2 20 20 None) "Q2" "A2")
              (mkFAQ (mkModel 2 10 10 None) "Q1" "A9" [])
              (mkDB (mkStore [mkRow (mkModel 1 10 10 None) "Q1" "A1";
                              mkRow (mkModel 2 20 20 None) "Q2" "A2"] [] []) [])
              H12 H20 eq_refl eq_refl eq_refl eq_refl eq_refl eq_refl)
    as [f2 [db2 [r2 [Heq [_ [Hr2 [Hq [Ha _]]]]]]]].
  exists f2, db2, r2. auto.
Defined.

Lemma save_associations_full now f rows s :
  save_associations now f rows s
  = (mkFAQ (FAQ_Model f) (Question f) (Answer f)
           (fst (save_tags now (Tags f) (tags s))),
     mkStore rows (snd (save_tags now (Tags f) (tags s)))
             (save_joins (ID (FAQ_Model f))
                         (fst (save_tags now (Tags f) (tags s))) (faq_tags s))).
Proof.
  unfold save_associations.
  destruct (save_tags now (Tags f) (tags s)) as [back tbl]. reflexivity.
Qed.

Lemma insert_faq_full now f s :
  ID (FAQ_Model f) = 0
  \/ has_id row_model (ID (FAQ_Model f)) (faqs s) = false ->
  exists f1,
    insert_faq now f s
    = inr (save_associations now f1 (insert_row row_model (row_of f1) (faqs s)) s)
    /\ Tags f1 = Tags f /\ Question f1 = Question f /\ Answer f1 = Answer f
    /\ DeletedAt (FAQ_Model f1) = DeletedAt (FAQ_Model f)
    /\ ID (FAQ_Model f1) <> 0
    /\ has_id row_model (ID (FAQ_Model f1)) (faqs s) = false.
Proof.
  intros Hk. unfold insert_faq. cbv zeta. rewrite !stamp_id.
  destruct (Z.eqb_spec (ID (FAQ_Model f)) 0) as [H0|H0].
  - eexists. split; [reflexivity|]. simpl.
    pose proof (next_id_positive row_model (faqs s)).
    repeat split; try lia. apply (next_id_fresh row_model).
  - destruct Hk as [Hk|Hk]; [contradiction|]. rewrite Hk.
    eexists. split; [reflexivity|]. simpl. repeat split; assumption.
Qed.

Lemma joined_add_join_mono a b f t js :
  joined a b js = true -> joined a b (add_join f t js) = true.
Proof.
  unfold add_join. destruct (joined f t js); [auto|].
  unfold joined. rewrite existsb_app. intros ->. reflexivity.
Qed.

Lemma joined_add_join_same f t js : joined f t (add_join f t js) = true.
Proof.
  unfold add_join. destruct (joined f t js) eqn:Hj; [exact Hj|].
  unfold joined. rewrite existsb_app. simpl. rewrite !Z.eqb_refl.
  apply orb_true_r.
Qed.

Lemma joined_save_joins_mono a b f ts js :
  joined a b js = true -> joined a b (save_joins f ts js) = true.
Proof.
  unfold save_joins. revert js.
  induction ts as [|t rest IH]; intros js Hj; simpl; [exact Hj|].
  apply IH. apply joined_add_join_mono. exact Hj.
Qed.

Lemma joined_save_joins f ts js t :
  In t ts -> joined f (ID (Tag_Model t)) (save_joins f ts js) = true.
Proof.
  unfold save_joins. revert js.
  induction ts as [|x rest IH]; intros js Hin; simpl; [contradiction|].
  destruct Hin as [->|Hin]; [|apply IH; exact Hin].
  apply (joined_save_joins_mono f (ID (Tag_Model t)) f rest).
  apply joined_add_join_same.
Qed.

(** Each element handed to the saving of tags comes back, under its own
    key when it had one. *)
Lemma save_tags_back now ts tbl t :
  In t ts -> ID (Tag_Model t) <> 0 ->
  exists t', In t' (fst (save_tags now ts tbl))
             /\ ID (Tag_Model t') = ID (Tag_Model t).
Proof.
  revert tbl. induction ts as [|x rest IH]; intros tbl Hin Hnz;
    [contradiction|].
  simpl. destruct Hin as [->|Hin].
  - destruct (Z.eqb_spec (ID (Tag_Model t)) 0); [contradiction|].
    destruct (has_id Tag_Model (ID (Tag_Model t)) tbl).
    + destruct (save_tags now rest tbl) as [back tbl']. simpl.
      eexists. split; [left; reflexivity|reflexivity].
    + destruct (save_tags now rest _) as [back tbl']. simpl.
      eexists. split; [left; reflexivity|reflexivity].
  - destruct (ID (Tag_Model x) =? 0).
    + match goal with |- context [save_tags now rest ?tb] =>
        destruct (IH tb Hin Hnz) as [t' [Ht' Hid]];
        destruct (save_tags now rest tb) as [back tbl'] end.
      simpl in *. exists t'. auto.
    + destruct (has_id Tag_Model (ID (Tag_Model x)) tbl).
      * destruct (IH tbl Hin Hnz) as [t' [Ht' Hid]].
        destruct (save_tags now rest tbl) as [back tbl'].
        simpl in *. exists t'. auto.
      * match goal with |- context [save_tags now rest ?tb] =>
          destruct (IH tb Hin Hnz) as [t' [Ht' Hid]];
          destruct (save_tags now rest tb) as [back tbl'] end.
        simpl in *. exists t'. auto.
Qed.

(** An FAQ created with references to stored tags reads back with those
    tags: every live stored tag whose key the body references is among the
    tags of the record read, and the tags of that record are stored rows,
    as stored, not as the body describes them.  The tag table is as
    before. *)
Theorem create_with_tag_references_then_read
    (now : Time) (p : FAQFields) (f0 : FAQ) (db : DB) :
  bind_faq uint_key p zero_faq = inr f0 ->
  f_DeletedAt (q_Model p) = None ->
  ID (FAQ_Model f0) = 0
  \/ has_id row_model (ID (FAQ_Model f0)) (faqs (store db)) = false ->
  body_refs_known (tags (store db)) (Decoded p) = true ->
  calm 2 (faults db) = true ->
  exists f db1 g db2,
    Main.createFAQHandler now (Decoded p) db = (JSON StatusCreated (oFAQ f), db1)
    /\ Main.readFAQHandler (ID (FAQ_Model f)) db1 = (JSON StatusOK (oFAQ g), db2)
    /\ tags (store db1) = tags (store db)
    /\ (forall x t, In x (tags (store db)) -> live (Tag_Model x) = true ->
                    In t (Tags f0) -> ID (Tag_Model t) = ID (Tag_Model x) ->
                    In x (Tags g))
    /\ (forall x, In x (Tags g) ->
                  In x (tags (store db)) /\ live (Tag_Model x) = true).
Proof.
  intros Hb Hnodel Hk Hrefs Hc. apply calm_2 in Hc. destruct Hc as [Hc1 Hc2].
  pose proof (bind_faq_tags_known _ _ _ _ _ Hb eq_refl Hrefs) as Hknown.
  destruct (bind_faq_ok _ _ _ _ Hb) as [_ [_ [_ Hd0]]].
  rewrite Hnodel in Hd0. simpl in Hd0.
  unfold Main.createFAQHandler, ShouldBindJSON. rewrite Hb.
  unfold Create_FAQ. rewrite tick_spec, Hc1. simpl.
  destruct (insert_faq_full now f0 (store db) Hk)
    as [f1 [-> [Htags [_ [_ [Hd [Hnz Hfresh]]]]]]].
  rewrite save_associations_full. rewrite Htags.
  rewrite (save_tags_known now (Tags f0) (tags (store db)) Hknown).
  eexists. eexists. eexists. eexists. split; [reflexivity|].
  unfold Main.readFAQHandler, Preload_First_FAQ. rewrite tick_spec. simpl.
  rewrite Hc2.
  change (ID (FAQ_Model f1)) with (ID (row_model (row_of f1))) at 1.
  rewrite (first_live_inserted row_model (row_of f1) (faqs (store db)));
    [|exact Hfresh|unfold live; simpl; rewrite Hd, Hd0; reflexivity].
  split; [reflexivity|].
  split; [reflexivity|]. simpl. unfold preload_tags. simpl. split.
  - intros x t Hx Hl Ht Hid. apply filter_In. split.
    + apply all_live_in. auto.
    + assert (ID (Tag_Model t) <> 0) as Htnz.
      { unfold tags_known in Hknown. rewrite forallb_forall in Hknown.
        specialize (Hknown t Ht). apply andb_true_iff in Hknown.
        destruct Hknown as [Hz _]. apply negb_true_iff in Hz.
        apply Z.eqb_neq in Hz. exact Hz. }
      destruct (save_tags_back now (Tags f0) (tags (store db)) t Ht Htnz)
        as [t' [Ht' Hid']].
      rewrite <- Hid, <- Hid'. apply joined_save_joins. exact Ht'.
  - intros x Hin. apply filter_In in Hin. destruct Hin as [Hin _].
    apply all_live_in in Hin. exact Hin.
Qed.

Lemma create_with_tag_references_then_read_witness :
  exists f db1 g db2,
    Main.createFAQHandler
      50 (Decoded (mkFAQFields no_model (Some "Q2") (Some "A2")
                     (Some [mkTagFields (mkModelFields (Some 1) None None None)
                                        (Some "renamed") None])))
      (mkDB sample [])
    = (JSON StatusCreated (oFAQ f), db1)
    /\ Main.readFAQHandler (ID (FAQ_Model f)) db1 = (JSON StatusOK (oFAQ g), db2)
    /\ In (mkTag (mkModel 1 10 10 None) "billing" "finance") (Tags g).
Proof.
  destruct (create_with_tag_references_then_read
              50 (mkFAQFields no_model (Some "Q2") (Some "A2")
                    (Some [mkTagFields (mkModelFields (Some 1) None None None)
                                       (Some "renamed") None]))
              (mkFAQ (mkModel 0 0 0 None) "Q2" "A2"
                     [mkTag (mkModel 1 0 0 None) "renamed" ""])
              (mkDB sample []) eq_refl eq_refl (or_introl eq_refl)
              eq_refl eq_refl)
    as [f [db1 [g [db2 [Hc [Hr [_ [Hin _]]]]]]]].
  exists f, db1, g, db2. split; [exact Hc|]. split; [exact Hr|].
  exact (Hin (mkTag (mkModel 1 10 10 None) "billing" "finance")
             (mkTag (mkModel 1 0 0 None) "renamed" "")
             (or_introl eq_refl) eq_refl (or_introl eq_refl) eq_refl).
Defined.

(** *** What every writing handler preserves *)

Section Preserved.
Variable P : Store -> Prop.
Hypothesis Create_FAQ_keeps :
  forall now f db, P (store db) -> P (store (snd (Create_FAQ now f db))).
Hypothesis Save_FAQ_keeps :
  forall now f db, P (store db) -> P (store (snd (Save_FAQ now f db))).
Hypothesis Delete_FAQ_keeps :
  forall now f db, P (store db) -> P (store (snd (Delete_FAQ now f db))).
Hypothesis Create_Tag_keeps :
  forall now t db, P (store db) -> P (store (snd (Create_Tag now t db))).
Hypothesis Save_Tag_keeps :
  forall now t db, P (store db) -> P (store (snd (Save_Tag now t db))).
Hypothesis Delete_Tag_keeps :
  forall now t db, P (store db) -> P (store (snd (Delete_Tag now t db))).

Lemma main_writers_preserve now id fbody tbody db :
  P (store db) ->
  P (store (snd (Main.createFAQHandler now fbody db)))
  /\ P (store (snd (Main.updateFAQHandler now id fbody db)))
  /\ P (store (snd (Main.deleteFAQHandler now id db)))
  /\ P (store (snd (Main.createTagHandler now tbody db)))
  /\ P (store (snd (Main.updateTagHandler now id tbody db)))
  /\ P (store (snd (Main.deleteTagHandler now id db))).
Proof.
  intros Hk. split; [|split; [|split; [|split; [|split]]]].
  - unfold Main.createFAQHandler.
    destruct (ShouldBindJSON _ fbody zero_faq) as [e|f]; [exact Hk|].
    pose proof (Create_FAQ_keeps now f db Hk) as Hc.
    destruct (Create_FAQ now f db) as [[f' [e|]] db']; exact Hc.
  - unfold Main.updateFAQHandler, First_FAQ. rewrite tick_spec.
    destruct (hd None (faults db)); simpl; [exact Hk|].
    destruct (first_live row_model id (faqs (store db))) as [r|]; [|exact Hk].
    destruct (ShouldBindJSON _ fbody (faq_of r [])) as [e|f]; [exact Hk|].
    pose proof (Save_FAQ_keeps now f (mkDB (store db) (tl (faults db))) Hk)
      as Hs.
    destruct (Save_FAQ now f _) as [[f' e] db']. exact Hs.
  - unfold Main.deleteFAQHandler, First_FAQ. rewrite tick_spec.
    destruct (hd None (faults db)); simpl; [exact Hk|].
    destruct (first_live row_model id (faqs (store db))) as [r|]; [|exact Hk].
    pose proof (Delete_FAQ_keeps now (faq_of r [])
                  (mkDB (store db) (tl (faults db))) Hk) as Hd.
    destruct (Delete_FAQ now _ _) as [e db']. exact Hd.
  - unfold Main.createTagHandler.
    destruct (ShouldBindJSON _ tbody zero_tag) as [e|t]; [exact Hk|].
    pose proof (Create_Tag_keeps now t db Hk) as Hc.
    destruct (Create_Tag now t db) as [[t' [e|]] db']; exact Hc.
  - unfold Main.updateTagHandler, First_Tag. rewrite tick_spec.
    destruct (hd None (faults db)); simpl; [exact Hk|].
    destruct (first_live Tag_Model id (tags (store db))) as [t|]; [|exact Hk].
    destruct (ShouldBindJSON _ tbody t) as [e|t1]; [exact Hk|].
    pose proof (Save_Tag_keeps now t1 (mkDB (store db) (tl (faults db))) Hk)
      as Hs.
    destruct (Save_Tag now t1 _) as [[t' e] db']. exact Hs.
  - unfold Main.deleteTagHandler, First_Tag. rewrite tick_spec.
    destruct (hd None (faults db)); simpl; [exact Hk|].
    destruct (first_live Tag_Model id (tags (store db))) as [t|]; [|exact Hk].
    pose proof (Delete_Tag_keeps now t
                  (mkDB (store db) (tl (faults db))) Hk) as Hd.
    destruct (Delete_Tag now _ _) as [e db']. exact Hd.
Qed.

Lemma earlier_writers_preserve now id fbody tbody db :
  P (store db) ->
  P (store (snd (Earlier.createFAQ now fbody db)))
  /\ P (store (snd (Earlier.UpdateFAQ now id fbody db)))
  /\ P (store (snd (Earlier.DeleteFAQ now id db)))
  /\ P (store (snd (Earlier.createTag now tbody db)))
  /\ P (store (snd (Earlier.UpdateTag now id tbody db)))
  /\ P (store (snd (Earlier.DeleteTag now id db))).
Proof.
  intros Hk. split; [|split; [|split; [|split; [|split]]]].
  - unfold Earlier.createFAQ.
    destruct (ShouldBindJSON _ fbody zero_faq) as [e|f]; [exact Hk|].
    pose proof (Create_FAQ_keeps now f db Hk) as Hc.
    destruct (Create_FAQ now f db) as [[f' [e|]] db']; exact Hc.
  - unfold Earlier.UpdateFAQ, First_FAQ. rewrite tick_spec.
    destruct (hd None (faults db)); simpl; [exact Hk|].
    destruct (first_live row_model id (faqs (store db))) as [r|]; [|exact Hk].
    destruct (ShouldBindJSON _ fbody (faq_of r [])) as [e|f]; [exact Hk|].
    pose proof (Save_FAQ_keeps now f (mkDB (store db) (tl (faults db))) Hk)
      as Hs.
    destruct (Save_FAQ now f _) as [[f' e] db']. exact Hs.
  - unfold Earlier.DeleteFAQ, First_FAQ. rewrite tick_spec.
    destruct (hd None (faults db)); simpl; [exact Hk|].
    destruct (first_live row_model id (faqs (store db))) as [r|]; [|exact Hk].
    pose proof (Delete_FAQ_keeps now (faq_of r [])
                  (mkDB (store db) (tl (faults db))) Hk) as Hd.
    destruct (Delete_FAQ now _ _) as [[e|] db']; exact Hd.
  - unfold Earlier.createTag.
    destruct (ShouldBindJSON _ tbody zero_tag) as [e|t]; [exact Hk|].
    pose proof (Create_Tag_keeps now t db Hk) as Hc.
    destruct (Create_Tag now t db) as [[t' [e|]] db']; exact Hc.
  - unfold Earlier.UpdateTag, First_Tag. rewrite tick_spec.
    destruct (hd None (faults db)); simpl; [exact Hk|].
    destruct (first_live Tag_Model id (tags (store db))) as [t|]; [|exact Hk].
    destruct (ShouldBindJSON _ tbody t) as [e|t1]; [exact Hk|].
    pose proof (Save_Tag_keeps now t1 (mkDB (store db) (tl (faults db))) Hk)
      as Hs.
    destruct (Save_Tag now t1 _) as [[t' [e|]] db']; exact Hs.
  - unfold Earlier.DeleteTag, First_Tag. rewrite tick_spec.
    destruct (hd None (faults db)); simpl; [exact Hk|].
    destruct (first_live Tag_Model id (tags (store db))) as [t|]; [|exact Hk].
    pose proof (Delete_Tag_keeps now t
                  (mkDB (store db) (tl (faults db))) Hk) as Hd.
    destruct (Delete_Tag now _ _) as [[e|] db']; exact Hd.
Qed.
End Preserved.

(** *** Unique keys *)

Lemma not_joined_not_in f t js : joined f t js = false -> ~ In (f, t) js.
Proof.
  unfold joined. intros Hj Hin.
  assert (existsb (fun j => (fst j =? f) && (snd j =? t)) js = true) as Ht.
  { apply existsb_exists. exists (f, t). split; [exact Hin|]. simpl.
    rewrite !Z.eqb_refl. reflexivity. }
  congruence.
Qed.

Lemma nodup_snoc {A : Type} (l : list A) (x : A) :
  NoDup l -> ~ In x l -> NoDup (l ++ [x]).
Proof.
  induction l as [|y ys IH]; simpl; intros Hnd Hx.
  - constructor; [intros []|constructor].
  - inversion Hnd as [|z zs Hy Hys]; subst. constructor.
    + intros Hin. apply in_app_or in Hin. destruct Hin as [Hin|[->|[]]].
      * contradiction.
      * apply Hx. left. reflexivity.
    + apply IH; [exact Hys|]. intros Hin. apply Hx. right. exact Hin.
Qed.

Lemma save_joins_nodup f ts js : NoDup js -> NoDup (save_joins f ts js).
Proof.
  unfold save_joins. revert js.
  induction ts as [|t rest IH]; intros js Hnd; simpl; [exact Hnd|].
  apply IH. unfold add_join.
  destruct (joined f (ID (Tag_Model t)) js) eqn:Hj; [exact Hnd|].
  apply nodup_snoc; [exact Hnd|]. apply not_joined_not_in. exact Hj.
Qed.

Lemma save_tags_nodup now ts tbl :
  NoDup (map (fun x => ID (Tag_Model x)) tbl) ->
  NoDup (map (fun x => ID (Tag_Model x)) (snd (save_tags now ts tbl))).
Proof.
  revert tbl. induction ts as [|t rest IH]; intros tbl Hnd; simpl; [exact Hnd|].
  destruct (ID (Tag_Model t) =? 0).
  - match goal with |- context [save_tags now rest ?tb] =>
      specialize (IH tb); destruct (save_tags now rest tb) as [back tbl'] end.
    simpl in *. apply IH. apply insert_row_keys_nodup; [|exact Hnd].
    simpl. apply (next_id_fresh Tag_Model).
  - destruct (has_id Tag_Model (ID (Tag_Model t)) tbl) eqn:Hh.
    + specialize (IH tbl Hnd).
      destruct (save_tags now rest tbl) as [back tbl']. exact IH.
    + match goal with |- context [save_tags now rest ?tb] =>
        specialize (IH tb); destruct (save_tags now rest tb) as [back tbl'] end.
      simpl in *. apply IH. apply insert_row_keys_nodup; [|exact Hnd].
      simpl. exact Hh.
Qed.

Lemma save_associations_unique now f rows s :
  NoDup (map (fun r => ID (row_model r)) rows) ->
  NoDup (tag_keys s) -> NoDup (faq_tags s) ->
  keys_unique (snd (save_associations now f rows s)).
Proof.
  intros Hr Ht Hj. rewrite save_associations_full. simpl.
  split; [exact Hr|]. split.
  - apply save_tags_nodup. exact Ht.
  - apply save_joins_nodup. exact Hj.
Qed.

Lemma insert_faq_unique now f s f' s' :
  keys_unique s -> insert_faq now f s = inr (f', s') -> keys_unique s'.
Proof.
  intros [Hr [Ht Hj]]. unfold insert_faq. cbv zeta. rewrite !stamp_id.
  destruct (Z.eqb_spec (ID (FAQ_Model f)) 0) as [H0|H0].
  - intros Heq. injection Heq as Heq.
    match type of Heq with save_associations now ?g ?rows s = _ =>
      pose proof (save_associations_unique now g rows s) as Hs end.
    rewrite Heq in Hs. apply Hs; [|exact Ht|exact Hj].
    apply insert_row_keys_nodup; [|exact Hr]. simpl.
    apply (next_id_fresh row_model).
  - destruct (has_id row_model (ID (FAQ_Model f)) (faqs s)) eqn:Hh;
      [discriminate|].
    intros Heq. injection Heq as Heq.
    match type of Heq with save_associations now ?g ?rows s = _ =>
      pose proof (save_associations_unique now g rows s) as Hs end.
    rewrite Heq in Hs. apply Hs; [|exact Ht|exact Hj].
    apply insert_row_keys_nodup; [|exact Hr]. simpl. exact Hh.
Qed.

Lemma insert_tag_unique now t s t' s' :
  keys_unique s -> insert_tag now t s = inr (t', s') -> keys_unique s'.
Proof.
  intros [Hr [Ht Hj]]. unfold insert_tag. cbv zeta. rewrite !stamp_id.
  destruct (Z.eqb_spec (ID (Tag_Model t)) 0) as [H0|H0].
  - intros Heq. injection Heq as _ <-. split; [exact Hr|]. split; [|exact Hj].
    unfold tag_keys. simpl. apply insert_row_keys_nodup; [|exact Ht].
    simpl. apply (next_id_fresh Tag_Model).
  - destruct (has_id Tag_Model (ID (Tag_Model t)) (tags s)) eqn:Hh;
      [discriminate|].
    intros Heq. injection Heq as _ <-. split; [exact Hr|]. split; [|exact Hj].
    unfold tag_keys. simpl. apply insert_row_keys_nodup; [|exact Ht].
    simpl. exact Hh.
Qed.

Lemma Create_FAQ_unique now f db :
  keys_unique (store db) -> keys_unique (store (snd (Create_FAQ now f db))).
Proof.
  intros Hk. unfold Create_FAQ. rewrite tick_spec.
  destruct (hd None (faults db)); simpl; [exact Hk|].
  destruct (insert_faq now f (store db)) as [e|[f' s']] eqn:Hi; simpl;
    [exact Hk|]. exact (insert_faq_unique _ _ _ _ _ Hk Hi).
Qed.

Lemma Save_FAQ_unique now f db :
  keys_unique (store db) -> keys_unique (store (snd (Save_FAQ now f db))).
Proof.
  intros Hk. unfold Save_FAQ. rewrite tick_spec.
  destruct (hd None (faults db)); simpl; [exact Hk|].
  destruct (Z.eqb_spec (ID (FAQ_Model f)) 0) as [H0|H0].
  - destruct (insert_faq now f (store db)) as [e|[f' s']] eqn:Hi; simpl;
      [exact Hk|]. exact (insert_faq_unique _ _ _ _ _ Hk Hi).
  - destruct Hk as [Hr [Ht Hj]].
    destruct (first_live row_model (ID (FAQ_Model f)) (faqs (store db))).
    + match goal with |- context [save_associations now ?g ?rows ?s] =>
        pose proof (save_associations_unique now g rows s) as Hs;
        destruct (save_associations now g rows s) as [f' s'] end.
      simpl in *. apply Hs; [|exact Ht|exact Hj].
      rewrite (update_live_keys row_model); [exact Hr|reflexivity].
    + match goal with |- context [save_associations now ?g ?rows ?s] =>
        pose proof (save_associations_unique now g rows s) as Hs;
        destruct (save_associations now g rows s) as [f' s'] end.
      simpl in *. apply Hs; [|exact Ht|exact Hj].
      apply (upsert_keys_nodup row_model). exact Hr.
Qed.

Lemma Delete_FAQ_unique now f db :
  keys_unique (store db) -> keys_unique (store (snd (Delete_FAQ now f db))).
Proof.
  intros [Hr [Ht Hj]]. pose proof (Delete_FAQ_frame now f db) as Hd.
  simpl in Hd. destruct Hd as [Htags [Hjoins [Hkeys _]]].
  unfold keys_unique, tag_keys. rewrite Htags, Hjoins, Hkeys. auto.
Qed.

Lemma Create_Tag_unique now t db :
  keys_unique (store db) -> keys_unique (store (snd (Create_Tag now t db))).
Proof.
  intros Hk. unfold Create_Tag. rewrite tick_spec.
  destruct (hd None (faults db)); simpl; [exact Hk|].
  destruct (insert_tag now t (store db)) as [e|[t' s']] eqn:Hi; simpl;
    [exact Hk|]. exact (insert_tag_unique _ _ _ _ _ Hk Hi).
Qed.

Lemma Save_Tag_unique now t db :
  keys_unique (store db) -> keys_unique (store (snd (Save_Tag now t db))).
Proof.
  intros Hk. unfold Save_Tag. rewrite tick_spec.
  destruct (hd None (faults db)); simpl; [exact Hk|].
  destruct (Z.eqb_spec (ID (Tag_Model t)) 0) as [H0|H0].
  - destruct (insert_tag now t (store db)) as [e|[t' s']] eqn:Hi; simpl;
      [exact Hk|]. exact (insert_tag_unique _ _ _ _ _ Hk Hi).
  - destruct Hk as [Hr [Ht Hj]].
    destruct (first_live Tag_Model (ID (Tag_Model t)) (tags (store db)));
      simpl; (split; [exact Hr|]); (split; [|exact Hj]); unfold tag_keys; simpl.
    + rewrite (update_live_keys Tag_Model); [exact Ht|reflexivity].
    + apply (upsert_keys_nodup Tag_Model). exact Ht.
Qed.

Lemma Delete_Tag_unique now t db :
  keys_unique (store db) -> keys_unique (store (snd (Delete_Tag now t db))).
Proof.
  intros [Hr [Ht Hj]]. pose proof (Delete_Tag_frame now t db) as Hd.
  simpl in Hd. destruct Hd as [Hfaqs [Hjoins [Hkeys _]]].
  unfold keys_unique, faq_keys. rewrite Hfaqs, Hjoins, Hkeys. auto.
Qed.

Lemma sample_keys_nonzero : keys_nonzero sample.
Proof.
  split; intros x [<-|[]]; simpl; lia.
Defined.

Lemma sample_keys_unique : keys_unique sample.
Proof.
  split; [|split]; (constructor; [intros []|constructor]).
Defined.

(** Starting from unique keys, every request to [main.go] leaves the
    primary keys of both tables unique and the join table without a
    repeated pair. *)
Theorem main_handlers_keep_keys_unique
    (now : Time) (id : Z) (fbody : Body FAQFields) (tbody : Body TagFields)
    (db : DB) :
  keys_unique (store db) ->
  keys_unique (store (snd (Main.createFAQHandler now fbody db)))
  /\ keys_unique (store (snd (Main.updateFAQHandler now id fbody db)))
  /\ keys_unique (store (snd (Main.deleteFAQHandler now id db)))
  /\ keys_unique (store (snd (Main.createTagHandler now tbody db)))
  /\ keys_unique (store (snd (Main.updateTagHandler now id tbody db)))
  /\ keys_unique (store (snd (Main.deleteTagHandler now id db))).
Proof.
  apply (main_writers_preserve keys_unique).
  - exact Create_FAQ_unique.
  - exact Save_FAQ_unique.
  - exact Delete_FAQ_unique.
  - exact Create_Tag_unique.
  - exact Save_Tag_unique.
  - exact Delete_Tag_unique.
Qed.

Lemma main_handlers_keep_keys_unique_witness :
  keys_unique
    (store (snd (Main.createFAQHandler 50 (Decoded (qa "Q2" "A2"))
                                       (mkDB sample [])))).
Proof.
  exact (proj1 (main_handlers_keep_keys_unique
                  50 1 (Decoded (qa "Q2" "A2")) (Malformed "EOF")
                  (mkDB sample []) sample_keys_unique)).
Defined.

(** The same two invariants under the handlers of the earlier variant:
    keys stay nonzero and unique. *)
Theorem earlier_handlers_keep_keys_well_formed
    (now : Time) (id : Z) (fbody : Body FAQFields) (tbody : Body TagFields)
    (db : DB) :
  keys_nonzero (store db) /\ keys_unique (store db) ->
  let ok s := keys_nonzero s /\ keys_unique s in
  ok (store (snd (Earlier.createFAQ now fbody db)))
  /\ ok (store (snd (Earlier.UpdateFAQ now id fbody db)))
  /\ ok (store (snd (Earlier.DeleteFAQ now id db)))
  /\ ok (store (snd (Earlier.createTag now tbody db)))
  /\ ok (store (snd (Earlier.UpdateTag now id tbody db)))
  /\ ok (store (snd (Earlier.DeleteTag now id db))).
Proof.
  intros Hk ok. subst ok.
  apply (earlier_writers_preserve (fun s => keys_nonzero s /\ keys_unique s));
    [..|exact Hk]; intros ? ? ? [Hn Hu]; split.
  - apply KeyFacts.Create_FAQ_nonzero; exact Hn.
  - apply Create_FAQ_unique; exact Hu.
  - apply KeyFacts.Save_FAQ_nonzero; exact Hn.
  - apply Save_FAQ_unique; exact Hu.
  - apply KeyFacts.Delete_FAQ_nonzero; exact Hn.
  - apply Delete_FAQ_unique; exact Hu.
  - apply KeyFacts.Create_Tag_nonzero; exact Hn.
  - apply Create_Tag_unique; exact Hu.
  - apply KeyFacts.Save_Tag_nonzero; exact Hn.
  - apply Save_Tag_unique; exact Hu.
  - apply KeyFacts.Delete_Tag_nonzero; exact Hn.
  - apply Delete_Tag_unique; exact Hu.
Qed.

Lemma earlier_handlers_keep_keys_well_formed_witness :
  keys_nonzero (store (snd (Earlier.createFAQ 50 (Decoded (qa "Q2" "A2"))
                                              (mkDB sample []))))
  /\ keys_unique (store (snd (Earlier.createFAQ 50 (Decoded (qa "Q2" "A2"))
                                                (mkDB sample [])))).
Proof.
  exact (proj1 (earlier_handlers_keep_keys_well_formed
                  50 1 (Decoded (qa "Q2" "A2")) (Malformed "EOF")
                  (mkDB sample []) (conj sample_keys_nonzero sample_keys_unique))).
Defined.

(** Starting from nonzero keys, every request to [main.go] leaves every
    key nonzero, and the three reading handlers leave the store as it is. *)
Theorem main_requests_keep_keys_nonzero
    (now : Time) (id : Z) (fbody : Body FAQFields) (tbody : Body TagFields)
    (db : DB) :
  keys_nonzero (store db) ->
  (keys_nonzero (store (snd (Main.createFAQHandler now fbody db)))
   /\ keys_nonzero (store (snd (Main.updateFAQHandler now id fbody db)))
   /\ keys_nonzero (store (snd (Main.deleteFAQHandler now id db)))
   /\ keys_nonzero (store (snd (Main.createTagHandler now tbody db)))
   /\ keys_nonzero (store (snd (Main.updateTagHandler now id tbody db)))
   /\ keys_nonzero (store (snd (Main.deleteTagHandler now id db))))
  /\ store (snd (Main.readFAQHandler id db)) = store db
  /\ store (snd (Main.preloadFAQsHandler db)) = store db
  /\ store (snd (Main.getTagsHandler db)) = store db.
Proof.
  intros Hk. split.
  - apply (main_writers_preserve keys_nonzero); [..|exact Hk].
    + exact KeyFacts.Create_FAQ_nonzero.
    + exact KeyFacts.Save_FAQ_nonzero.
    + exact KeyFacts.Delete_FAQ_nonzero.
    + exact KeyFacts.Create_Tag_nonzero.
    + exact KeyFacts.Save_Tag_nonzero.
    + exact KeyFacts.Delete_Tag_nonzero.
  - split; [|split].
    + unfold Main.readFAQHandler, Preload_First_FAQ. rewrite tick_spec.
      destruct (hd None (faults db)); simpl; [reflexivity|].
      destruct (first_live row_model id (faqs (store db))); reflexivity.
    + unfold Main.preloadFAQsHandler, Preload_Find_FAQ. rewrite tick_spec.
      destruct (hd None (faults db)); reflexivity.
    + unfold Main.getTagsHandler, Find_Tag. rewrite tick_spec.
      destruct (hd None (faults db)); reflexivity.
Qed.

Lemma main_requests_keep_keys_nonzero_witness :
  keys_nonzero
    (store (snd (Main.updateFAQHandler
                   50 1 (Decoded (mkFAQFields
                                    (mkModelFields (Some 0) None None None)
                                    (Some "Q2") None None))
                   (mkDB sample [])))).
Proof.
  exact (proj1 (proj2 (proj1 (main_requests_keep_keys_nonzero
                  50 1 (Decoded (mkFAQFields
                                   (mkModelFields (Some 0) None None None)
                                   (Some "Q2") None None))
                  (Malformed "EOF") (mkDB sample []) sample_keys_nonzero)))).
Defined.

(** *** Dispatch *)

Lemma segments_slash_free x : slash_free x = true -> Gin.segments x = [x].
Proof.
  induction x as [|c rest IH]; simpl; intros H; [reflexivity|].
  apply andb_true_iff in H. destruct H as [Hc Hr].
  apply negb_true_iff in Hc. rewrite Hc, (IH Hr). reflexivity.
Qed.

Lemma nonempty_eqb x : x <> "" -> String.eqb x "" = false.
Proof. intros H. apply String.eqb_neq. exact H. Qed.

(** A request for [/faqs/<id>] or [/tags/<id>], the id being any non-empty
    segment, goes to the handler registered for its method; POST is not
    accepted there, nor GET for a single tag. *)
Theorem by_id_requests_are_dispatched (x : string) :
  x <> "" -> slash_free x = true ->
  let r := Main.setupRouter in
  Gin.lookup r Gin.GET (String.append "/faqs/" x) = Some Main.h_readFAQ
  /\ Gin.lookup r Gin.PUT (String.append "/faqs/" x) = Some Main.h_updateFAQ
  /\ Gin.lookup r Gin.DELETE (String.append "/faqs/" x) = Some Main.h_deleteFAQ
  /\ Gin.lookup r Gin.PUT (String.append "/tags/" x) = Some Main.h_updateTag
  /\ Gin.lookup r Gin.DELETE (String.append "/tags/" x) = Some Main.h_deleteTag
  /\ Gin.lookup r Gin.POST (String.append "/faqs/" x) = None
  /\ Gin.lookup r Gin.POST (String.append "/tags/" x) = None.
Proof.
  intros Hne Hsf r. subst r.
  pose proof (segments_slash_free x Hsf) as Hx.
  pose proof (nonempty_eqb x Hne) as He.
  unfold Gin.lookup, Main.setupRouter, Gin.Handle, Gin.Default.
  cbn. rewrite Hx. cbn. rewrite He. cbn. repeat split.
Qed.

Lemma by_id_requests_are_dispatched_witness :
  Gin.lookup Main.setupRouter Gin.PUT "/faqs/12" = Some Main.h_updateFAQ.
Proof.
  assert ("12" <> "") as Hne by discriminate.
  destruct (by_id_requests_are_dispatched "12" Hne eq_refl) as [_ [H _]].
  exact H.
Defined.

(** Requests the router of [main.go] never dispatches: any path under
    PATCH, HEAD or OPTIONS; an update or delete of a whole collection; an
    empty id. *)
Theorem requests_never_dispatched :
  let r := Main.setupRouter in
  (forall path, Gin.lookup r Gin.PATCH path = None
                /\ Gin.lookup r Gin.HEAD path = None
                /\ Gin.lookup r Gin.OPTIONS path = None)
  /\ (forall m, Gin.lookup r m "/faqs/" = None
                /\ Gin.lookup r m "/tags/" = None
                /\ Gin.lookup r m "/" = None)
  /\ Gin.lookup r Gin.PUT "/faqs" = None
  /\ Gin.lookup r Gin.DELETE "/faqs" = None
  /\ Gin.lookup r Gin.PUT "/tags" = None
  /\ Gin.lookup r Gin.DELETE "/tags" = None.
Proof.
  simpl. split; [|split].
  - intros path. repeat split.
  - intros m. destruct m; repeat split.
  - repeat split.
Qed.

(** The router of the earlier variant dispatches what the router of
    [main.go] dispatches and, besides, GET requests that instantiate
    [/faqs_by_tag/:tag]; nothing else. *)
Theorem earlier_router_extends_main (m : Gin.Method) (path : string) :
  Gin.lookup Earlier.main_router m path <> None
  <-> (Gin.lookup Main.setupRouter m path <> None
       \/ (m = Gin.GET
           /\ Gin.segments_match (Gin.segments "/faqs_by_tag/:tag")
                                 (Gin.segments path) = true)).
Proof.
  rewrite !Claims.lookup_bound.
  change (Gin.Routes Earlier.main_router)
    with (Gin.Routes Main.setupRouter ++ [(Gin.GET, "/faqs_by_tag/:tag")]).
  rewrite existsb_app, orb_true_iff. simpl (existsb _ [_]).
  rewrite orb_false_r, andb_true_iff.
  split; (intros [H|[Hm Hs]]; [left; exact H|right; split; [|exact Hs]]).
  - destruct m; try discriminate; reflexivity.
  - subst m. reflexivity.
Qed.

(** *** Rows are never removed *)

Lemma grows_refl s : grows s s.
Proof. repeat split; apply incl_refl. Qed.

Lemma grows_trans s1 s2 s3 : grows s1 s2 -> grows s2 s3 -> grows s1 s3.
Proof.
  intros [A1 [B1 C1]] [A2 [B2 C2]].
  repeat split; eapply incl_tran; eassumption.
Qed.

Lemma save_joins_incl f ts js : incl js (save_joins f ts js).
Proof.
  unfold save_joins. revert js.
  induction ts as [|t rest IH]; intros js; simpl; [apply incl_refl|].
  eapply incl_tran; [|apply IH]. unfold add_join.
  destruct (joined f (ID (Tag_Model t)) js); [apply incl_refl|].
  apply incl_appl. apply incl_refl.
Qed.

Lemma save_tags_keys_incl now ts tbl :
  incl (map (fun x => ID (Tag_Model x)) tbl)
       (map (fun x => ID (Tag_Model x)) (snd (save_tags now ts tbl))).
Proof.
  intros k Hin. apply in_map_iff in Hin. destruct Hin as [x [Hk Hin]].
  apply in_map_iff. exists x. split; [exact Hk|].
  apply save_tags_keeps. exact Hin.
Qed.

Lemma save_associations_grows now f rows s :
  incl (faq_keys s) (map (fun r => ID (row_model r)) rows) ->
  grows s (snd (save_associations now f rows s)).
Proof.
  intros Hr. rewrite save_associations_full. simpl. split; [exact Hr|]. split.
  - apply save_tags_keys_incl.
  - apply save_joins_incl.
Qed.

Lemma insert_faq_grows now f s f' s' :
  insert_faq now f s = inr (f', s') -> grows s s'.
Proof.
  unfold insert_faq. cbv zeta. rewrite !stamp_id.
  destruct (ID (FAQ_Model f) =? 0).
  - intros Heq. injection Heq as Heq.
    match type of Heq with save_associations now ?g ?rows s = _ =>
      pose proof (save_associations_grows now g rows s) as Hs end.
    rewrite Heq in Hs. apply Hs. intros k Hin.
    apply (insert_row_keys_in row_model). right. exact Hin.
  - destruct (has_id row_model (ID (FAQ_Model f)) (faqs s)); [discriminate|].
    intros Heq. injection Heq as Heq.
    match type of Heq with save_associations now ?g ?rows s = _ =>
      pose proof (save_associations_grows now g rows s) as Hs end.
    rewrite Heq in Hs. apply Hs. intros k Hin.
    apply (insert_row_keys_in row_model). right. exact Hin.
Qed.

Lemma insert_tag_grows now t s t' s' :
  insert_tag now t s = inr (t', s') -> grows s s'.
Proof.
  unfold insert_tag. cbv zeta. rewrite !stamp_id.
  destruct (ID (Tag_Model t) =? 0).
  - intros Heq. injection Heq as _ <-.
    split; [apply incl_refl|]. split; [|apply incl_refl].
    intros k Hin. apply (insert_row_keys_in Tag_Model). right. exact Hin.
  - destruct (has_id Tag_Model (ID (Tag_Model t)) (tags s)); [discriminate|].
    intros Heq. injection Heq as _ <-.
    split; [apply incl_refl|]. split; [|apply incl_refl].
    intros k Hin. apply (insert_row_keys_in Tag_Model). right. exact Hin.
Qed.

Section Grows.
Variable s0 : Store.

Lemma Create_FAQ_grows now f db :
  grows s0 (store db) -> grows s0 (store (snd (Create_FAQ now f db))).
Proof.
  intros Hg. unfold Create_FAQ. rewrite tick_spec.
  destruct (hd None (faults db)); simpl; [exact Hg|].
  destruct (insert_faq now f (store db)) as [e|[f' s']] eqn:Hi; simpl;
    [exact Hg|].
  exact (grows_trans _ _ _ Hg (insert_faq_grows _ _ _ _ _ Hi)).
Qed.

Lemma Save_FAQ_grows now f db :
  grows s0 (store db) -> grows s0 (store (snd (Save_FAQ now f db))).
Proof.
  intros Hg. unfold Save_FAQ. rewrite tick_spec.
  destruct (hd None (faults db)); simpl; [exact Hg|].
  destruct (ID (FAQ_Model f) =? 0).
  - destruct (insert_faq now f (store db)) as [e|[f' s']] eqn:Hi; simpl;
      [exact Hg|].
    exact (grows_trans _ _ _ Hg (insert_faq_grows _ _ _ _ _ Hi)).
  - destruct (first_live row_model (ID (FAQ_Model f)) (faqs (store db))).
    + match goal with |- context [save_associations now ?g ?rows ?s] =>
        pose proof (save_associations_grows now g rows s) as Hs;
        destruct (save_associations now g rows s) as [f' s'] end.
      simpl in *. apply (grows_trans _ _ _ Hg). apply Hs.
      unfold faq_keys. rewrite (update_live_keys row_model);
        [apply incl_refl|reflexivity].
    + match goal with |- context [save_associations now ?g ?rows ?s] =>
        pose proof (save_associations_grows now g rows s) as Hs;
        destruct (save_associations now g rows s) as [f' s'] end.
      simpl in *. apply (grows_trans _ _ _ Hg). apply Hs.
      apply (upsert_keys_incl row_model).
Qed.

Lemma Delete_FAQ_grows now f db :
  grows s0 (store db) -> grows s0 (store (snd (Delete_FAQ now f db))).
Proof.
  intros Hg. pose proof (Delete_FAQ_frame now f db) as Hd. simpl in Hd.
  destruct Hd as [Htags [Hjoins [Hkeys _]]].
  apply (grows_trans _ _ _ Hg). unfold grows, tag_keys.
  rewrite Htags, Hjoins, Hkeys. repeat split; apply incl_refl.
Qed.

Lemma Create_Tag_grows now t db :
  grows s0 (store db) -> grows s0 (store (snd (Create_Tag now t db))).
Proof.
  intros Hg. unfold Create_Tag. rewrite tick_spec.
  destruct (hd None (faults db)); simpl; [exact Hg|].
  destruct (insert_tag now t (store db)) as [e|[t' s']] eqn:Hi; simpl;
    [exact Hg|].
  exact (grows_trans _ _ _ Hg (insert_tag_grows _ _ _ _ _ Hi)).
Qed.

Lemma Save_Tag_grows now t db :
  grows s0 (store db) -> grows s0 (store (snd (Save_Tag now t db))).
Proof.
  intros Hg. unfold Save_Tag. rewrite tick_spec.
  destruct (hd None (faults db)); simpl; [exact Hg|].
  destruct (ID (Tag_Model t) =? 0).
  - destruct (insert_tag now t (store db)) as [e|[t' s']] eqn:Hi; simpl;
      [exact Hg|].
    exact (grows_trans _ _ _ Hg (insert_tag_grows _ _ _ _ _ Hi)).
  - apply (grows_trans _ _ _ Hg).
    destruct (first_live Tag_Model (ID (Tag_Model t)) (tags (store db)));
      simpl; (split; [apply incl_refl|]); (split; [|apply incl_refl]);
      unfold tag_keys; simpl.
    + rewrite (update_live_keys Tag_Model); [apply incl_refl|reflexivity].
    + apply (upsert_keys_incl Tag_Model).
Qed.

Lemma Delete_Tag_grows now t db :
  grows s0 (store db) -> grows s0 (store (snd (Delete_Tag now t db))).
Proof.
  intros Hg. pose proof (Delete_Tag_frame now t db) as Hd. simpl in Hd.
  destruct Hd as [Hfaqs [Hjoins [Hkeys _]]].
  apply (grows_trans _ _ _ Hg). unfold grows, faq_keys.
  rewrite Hfaqs, Hjoins, Hkeys. repeat split; apply incl_refl.
Qed.
End Grows.

(** No request ever removes a row: after any request to either variant,
    every key that was in the FAQ table or in the tag table is still
    there, and so is every pair of the join table.  Deleting marks, and
    updating an FAQ's tags only adds pairs. *)
Theorem requests_never_remove_rows
    (now : Time) (id : Z) (fbody : Body FAQFields) (tbody : Body TagFields)
    (db : DB) :
  (grows (store db) (store (snd (Main.createFAQHandler now fbody db)))
   /\ grows (store db) (store (snd (Main.updateFAQHandler now id fbody db)))
   /\ grows (store db) (store (snd (Main.deleteFAQHandler now id db)))
   /\ grows (store db) (store (snd (Main.createTagHandler now tbody db)))
   /\ grows (store db) (store (snd (Main.updateTagHandler now id tbody db)))
   /\ grows (store db) (store (snd (Main.deleteTagHandler now id db))))
  /\ (grows (store db) (store (snd (Earlier.createFAQ now fbody db)))
      /\ grows (store db) (store (snd (Earlier.UpdateFAQ now id fbody db)))
      /\ grows (store db) (store (snd (Earlier.DeleteFAQ now id db)))
      /\ grows (store db) (store (snd (Earlier.createTag now tbody db)))
      /\ grows (store db) (store (snd (Earlier.UpdateTag now id tbody db)))
      /\ grows (store db) (store (snd (Earlier.DeleteTag now id db)))).
Proof.
  split.
  - apply (main_writers_preserve (grows (store db))); [..|apply grows_refl].
    + apply Create_FAQ_grows.
    + apply Save_FAQ_grows.
    + apply Delete_FAQ_grows.
    + apply Create_Tag_grows.
    + apply Save_Tag_grows.
    + apply Delete_Tag_grows.
  - apply (earlier_writers_preserve (grows (store db))); [..|apply grows_refl].
    + apply Create_FAQ_grows.
    + apply Save_FAQ_grows.
    + apply Delete_FAQ_grows.
    + apply Create_Tag_grows.
    + apply Save_Tag_grows.
    + apply Delete_Tag_grows.
Qed.

(** With unique keys in the store, the list with tags names no FAQ twice,
    and no FAQ of the list carries a tag twice. *)
Theorem list_has_no_duplicates (db : DB) (l : list FAQ) :
  keys_unique (store db) ->
  fst (Main.preloadFAQsHandler db) = JSON StatusOK (oFAQs l) ->
  NoDup (map (fun f => ID (FAQ_Model f)) l)
  /\ forall f, In f l -> NoDup (map (fun t => ID (Tag_Model t)) (Tags f)).
Proof.
  intros [Hr [Ht _]] Hl. apply preloadFAQsHandler_ok in Hl. subst l. split.
  - rewrite map_map. simpl. unfold all_live.
    apply (nodup_keys_filter row_model). exact Hr.
  - intros f Hin. apply in_map_iff in Hin. destruct Hin as [r [<- _]].
    simpl. unfold preload_tags, all_live.
    apply (nodup_keys_filter Tag_Model). apply (nodup_keys_filter Tag_Model).
    exact Ht.
Qed.

Lemma list_has_no_duplicates_witness :
  NoDup (map (fun f => ID (FAQ_Model f))
             [mkFAQ (mkModel 1 10 10 None) "Q1" "A1"
                    [mkTag (mkModel 1 10 10 None) "billing" "finance"]]).
Proof.
  exact (proj1 (list_has_no_duplicates
                  (mkDB sample [])
                  [mkFAQ (mkModel 1 10 10 None) "Q1" "A1"
                         [mkTag (mkModel 1 10 10 None) "billing" "finance"]]
                  sample_keys_unique eq_refl)).
Defined.

(** *** The earlier variant: create, read, delete *)

(** Create then read in the earlier variant, whose key is a signed
    integer: the record reads back with the body's question and answer,
    under the body's key when it gives one other than zero, negative keys
    included, and under a fresh positive key otherwise. *)
Theorem earlier_create_then_read
    (now : Time) (p : FAQFields) (f0 : FAQ) (db : DB) :
  bind_faq int_key p zero_faq = inr f0 ->
  f_DeletedAt (q_Model p) = None ->
  ID (FAQ_Model f0) = 0
  \/ has_id row_model (ID (FAQ_Model f0)) (faqs (store db)) = false ->
  calm 2 (faults db) = true ->
  exists f db1 g db2,
    Earlier.createFAQ now (Decoded p) db = (JSON StatusCreated (oFAQ f), db1)
    /\ Earlier.ReadFAQ (ID (FAQ_Model f)) db1 = (JSON StatusOK (oFAQ g), db2)
    /\ Question g = overlay (q_question p) ""
    /\ Answer g = overlay (q_answer p) ""
    /\ ID (FAQ_Model g) = ID (FAQ_Model f)
    /\ ID (FAQ_Model f) <> 0
    /\ (ID (FAQ_Model f0) <> 0 -> ID (FAQ_Model f) = ID (FAQ_Model f0))
    /\ (ID (FAQ_Model f0) = 0 -> 0 < ID (FAQ_Model f)).
Proof.
  intros Hb Hnodel Hk Hc. apply calm_2 in Hc. destruct Hc as [Hc1 Hc2].
  destruct (bind_faq_ok _ _ _ _ Hb) as [Hq0 [Ha0 [_ Hd0]]].
  rewrite Hnodel in Hd0. simpl in Hq0, Ha0, Hd0.
  unfold Earlier.createFAQ, ShouldBindJSON. rewrite Hb.
  unfold Create_FAQ. rewrite tick_spec, Hc1. simpl.
  assert (exists f1,
            insert_faq now f0 (store db)
            = inr (save_associations now f1
                     (insert_row row_model (row_of f1) (faqs (store db)))
                     (store db))
            /\ Question f1 = Question f0 /\ Answer f1 = Answer f0
            /\ DeletedAt (FAQ_Model f1) = DeletedAt (FAQ_Model f0)
            /\ ID (FAQ_Model f1) <> 0
            /\ has_id row_model (ID (FAQ_Model f1)) (faqs (store db)) = false
            /\ (ID (FAQ_Model f0) <> 0 -> ID (FAQ_Model f1) = ID (FAQ_Model f0))
            /\ (ID (FAQ_Model f0) = 0 -> 0 < ID (FAQ_Model f1))) as Hins.
  { unfold insert_faq. cbv zeta. rewrite !stamp_id.
    destruct (Z.eqb_spec (ID (FAQ_Model f0)) 0) as [H0|H0].
    - eexists. split; [reflexivity|]. simpl.
      pose proof (next_id_positive row_model (faqs (store db))).
      repeat split; try lia. apply (next_id_fresh row_model).
    - destruct Hk as [Hk|Hk]; [contradiction|]. rewrite Hk.
      eexists. split; [reflexivity|]. simpl.
      repeat split; try assumption. intros; contradiction. }
  destruct Hins as [f1 [-> [Hq [Ha [Hd [Hnz [Hfresh [Hkept Hnew]]]]]]]].
  rewrite save_associations_full.
  eexists. eexists. eexists. eexists. split; [reflexivity|].
  unfold Earlier.ReadFAQ, Preload_First_FAQ. rewrite tick_spec. simpl.
  rewrite Hc2.
  change (ID (FAQ_Model f1)) with (ID (row_model (row_of f1))) at 1.
  rewrite (first_live_inserted row_model (row_of f1) (faqs (store db)));
    [|exact Hfresh|unfold live; simpl; rewrite Hd, Hd0; reflexivity].
  split; [reflexivity|]. simpl.
  split; [congruence|]. split; [congruence|]. auto.
Qed.

Lemma earlier_create_then_read_witness :
  exists f db1 g db2,
    Earlier.createFAQ
      50 (Decoded (mkFAQFields (mkModelFields (Some (-5)) None None None)
                               (Some "Q") (Some "A") None))
      (mkDB sample [])
    = (JSON StatusCreated (oFAQ f), db1)
    /\ Earlier.ReadFAQ (ID (FAQ_Model f)) db1 = (JSON StatusOK (oFAQ g), db2)
    /\ ID (FAQ_Model f) = -5.
Proof.
  assert (-5 <> 0) as H5 by lia.
  destruct (earlier_create_then_read
              50 (mkFAQFields (mkModelFields (Some (-5)) None None None)
                              (Some "Q") (Some "A") None)
              (mkFAQ (mkModel (-5) 0 0 None) "Q" "A" [])
              (mkDB sample []) eq_refl eq_refl (or_intror eq_refl) eq_refl)
    as [f [db1 [g [db2 [Hc [Hr [_ [_ [_ [_ [Hkept _]]]]]]]]]]].
  exists f, db1, g, db2. split; [exact Hc|]. split; [exact Hr|].
  exact (Hkept H5).
Defined.



End Extras.
